(** * Expense-Manager: the approval-routing and decision engine

    A shallow embedding of the backend code that routes an expense through
    its approval chain:

    - [ApprovalService.determineApprovers] and
      [ApprovalService.processApproval]   (services/approvalService.js),
    - [ExpenseController.createExpense], [updateExpense], [deleteExpense]
      and [approveExpense]                (controllers/expenseController.js),
    - [AdminController.overrideApproval] and [createApprovalRule]
                                          (controllers/adminController.js),
    - [UserController.deleteUser]         (controllers/userController.js),
    - the filter of [getPendingApprovals],
    - the Mongoose schemas of [Expense] and [ApprovalRule] (models/).

    The MongoDB collections are an explicit store that every operation
    reads and writes; a JavaScript exception is the [Throw] case of
    [result]; [new Date()] is the argument [now]. *)

From Stdlib Require Import ZArith QArith List Permutation Sorted Lia Ascii.
From stdpp Require Import base option list gmap strings.

Local Open Scope string_scope.
Local Open Scope list_scope.
Local Open Scope Z_scope.

(** ** Values *)

(** A Mongo [ObjectId]; the code compares them through [toString()]. *)
Abbreviation ObjectId := string (only parsing).

(** A JavaScript [Date], as milliseconds since the epoch. *)
Abbreviation Date := Z (only parsing).

(** Amounts are JavaScript numbers. Every finite double is a rational and
    [<=] on finite doubles is [<=] on those rationals, so amounts are [Q].
    Sequences and priorities are numbers that hold integers; comparing two
    of them, also through the sign of their difference, is comparing the
    integers. *)

(** The double nearest to the integer [n], ties going to the even
    mantissa: every integer up to 2^53 in absolute value is a double, and
    from there on the doubles are the multiples of [ulp]. *)
Definition to_double (n : Z) : Z :=
  let m := Z.abs n in
  if m <? 2 ^ 53 then n
  else
    let ulp := 2 ^ (Z.log2 m - 52) in
    let q := m / ulp in
    let r := m mod ulp in
    Z.sgn n
    * ((if 2 * r <? ulp then q
        else if ulp <? 2 * r then q + 1
        else if Z.even q then q else q + 1)
       * ulp).

(** [a + b] on numbers that hold integers. *)
Definition js_add (a b : Z) : Z := to_double (a + b).

(** [Number.isSafeInteger] *)
Definition isSafeInteger (n : Z) : Prop := Z.abs n < 2 ^ 53.

(** Strings are UTF-8 text. [white_space] lists the encodings of the code
    points that [String.prototype.trim] removes: WhiteSpace (TAB, VT, FF,
    SP, NBSP, ZWNBSP and the space separators) and LineTerminator (LF, CR,
    LS, PS). *)
Definition white_space : list (list ascii) :=
  Eval cbv in
  let code_points : list (list Z) :=
    [[9]; [10]; [11]; [12]; [13]; [32]; [194; 160]; [225; 154; 128]]
    ++ ((λ b, [226; 128; b]) <$> seqZ 128 11)
    ++ [[226; 128; 168]; [226; 128; 169]; [226; 128; 175];
        [226; 129; 159]; [227; 128; 128]; [239; 187; 191]] in
  fmap (M := list) (λ byte, ascii_of_nat (Z.to_nat byte)) <$> code_points.

(** The rest of [l] behind the prefix [p]. *)
Fixpoint strip_prefix (p l : list ascii) : option (list ascii) :=
  match p, l with
  | [], _ => Some l
  | c :: p', d :: l' => if Ascii.eqb c d then strip_prefix p' l' else None
  | _ :: _, [] => None
  end.

(** Drops leading members of [spaces]; [fuel] bounds their number. *)
Fixpoint drop_spaces (spaces : list (list ascii)) (fuel : nat)
    (l : list ascii) : list ascii :=
  match fuel with
  | O => l
  | S fuel' =>
      match head (omap (λ p, strip_prefix p l) spaces) with
      | Some l' => drop_spaces spaces fuel' l'
      | None => l
      end
  end.

(** [String.prototype.trim] *)
Definition trim (s : string) : string :=
  let l := String.list_ascii_of_string s in
  let l := drop_spaces white_space (length l) l in
  String.string_of_list_ascii
    (reverse
       (drop_spaces (reverse <$> white_space) (length l) (reverse l))).
Arguments trim : simpl never.

(** ** Exceptions *)

Inductive result (A : Type) : Type :=
| Ok (a : A)
| Throw (msg : string).
Arguments Ok {A} a.
Arguments Throw {A} msg.

#[global] Instance result_bind : MBind result := λ A B k r,
  match r with
  | Ok a => k a
  | Throw msg => Throw msg
  end.

(** [Array.prototype.map] with a callback that may throw: the first
    exception, in index order, aborts the loop. *)
Fixpoint mapM {A B} (f : A → result B) (l : list A) : result (list B) :=
  match l with
  | [] => Ok []
  | x :: l' => y ← f x ; ys ← mapM f l' ; Ok (y :: ys)
  end.

(** [Array.prototype.find] and [findIndex] hand the callback the element
    and its index; [None] is [undefined]. *)
Fixpoint find_from {A} (p : A → nat → bool) (l : list A) (index : nat)
  : option A :=
  match l with
  | [] => None
  | x :: l' => if p x index then Some x else find_from p l' (S index)
  end.

(** ** Sorting

    [Array.prototype.sort] is stable, so it is modelled by a stable
    insertion sort, parameterised by the "not after" test induced by the
    comparator. *)

Section Sort.
Context {A : Type} (le : A → A → bool).

Fixpoint insert_sorted (x : A) (l : list A) : list A :=
  match l with
  | [] => [x]
  | y :: l' => if le x y then x :: y :: l' else y :: insert_sorted x l'
  end.

Definition stable_sort (l : list A) : list A :=
  foldr insert_sorted [] l.
End Sort.

(** ** Documents *)

Module User.
(** Modelled from the spec: models/User.js is not among the sources; the
    record keeps the fields that the controllers and the approval
    service read ([managerOf(employeeId) → userRef | none] in the
    spec). *)
Record t : Type := mk {
  company : ObjectId;
  role : string;
  department : string;
  manager : option ObjectId
}.
End User.

Module ApprovalRule.
Record Conditions : Type := mkConditions {
  minAmount : Q;
  maxAmount : Q;
  categories : list string;
  departments : list string
}.

Record Approver : Type := mkApprover {
  user : ObjectId;
  sequence : Z;
  isRequired : bool
}.

Record Rules : Type := mkRules {
  type : string;
  percentageRequired : option Z;
  specificApprovers : list ObjectId;
  requireManagerApproval : bool
}.

Record t : Type := mk {
  company : ObjectId;
  name : string;
  conditions : Conditions;
  approvers : list Approver;
  rules : Rules;
  isActive : bool;
  priority : Z
}.

(** The same rule with other category and department filters. *)
Definition set_filters (categories departments : list string) (r : t) : t :=
  mk (company r) (name r)
     (mkConditions (minAmount (conditions r)) (maxAmount (conditions r))
                   categories departments)
     (approvers r) (rules r) (isActive r) (priority r).
End ApprovalRule.

Module Approval.
(** One element of [expense.approvals]. *)
Record t : Type := mk {
  approver : ObjectId;
  status : string;
  comments : option string;
  approvedAt : option Date;
  sequence : Z
}.

(** The object literal [{ approver, sequence, status: 'pending' }]. *)
Definition pending (approver : ObjectId) (sequence : Z) : t :=
  mk approver "pending" None None sequence.

(** The three assignments [.status = s], [.comments = c] and
    [.approvedAt = new Date()] on one element. *)
Definition decided (s : string) (c : option string) (now : Date) (a : t) : t :=
  mk (approver a) s c (Some now) (sequence a).
End Approval.

Module Expense.
Record Money : Type := mkMoney {
  value : Q;
  currency : string
}.

(** The [receipt] and [ocrData] sub-documents are left out: no code of
    the approval workflow reads them. [expenseDate] is [None] for a value
    that the schema cannot cast to a date, [Invalid Date] among them. *)
Record t : Type := mk {
  employee : ObjectId;
  company : ObjectId;
  amount : Money;
  convertedAmount : Money;
  category : string;
  description : string;
  expenseDate : option Date;
  status : string;
  approvals : list Approval.t;
  currentApprovalLevel : Z;
  finalApprover : option ObjectId;
  approvedAt : option Date;
  rejectedAt : option Date;
  rejectionReason : option string
}.

(** Field assignments [expense.f = v]. *)
Definition set_status (v : string) (e : t) : t :=
  mk (employee e) (company e) (amount e) (convertedAmount e)
     (category e) (description e) (expenseDate e) v (approvals e)
     (currentApprovalLevel e) (finalApprover e) (approvedAt e)
     (rejectedAt e) (rejectionReason e).
Definition set_approvals (v : list Approval.t) (e : t) : t :=
  mk (employee e) (company e) (amount e) (convertedAmount e)
     (category e) (description e) (expenseDate e) (status e) v
     (currentApprovalLevel e) (finalApprover e) (approvedAt e)
     (rejectedAt e) (rejectionReason e).
Definition set_currentApprovalLevel (v : Z) (e : t) : t :=
  mk (employee e) (company e) (amount e) (convertedAmount e)
     (category e) (description e) (expenseDate e) (status e) (approvals e)
     v (finalApprover e) (approvedAt e) (rejectedAt e) (rejectionReason e).
Definition set_finalApprover (v : option ObjectId) (e : t) : t :=
  mk (employee e) (company e) (amount e) (convertedAmount e)
     (category e) (description e) (expenseDate e) (status e) (approvals e)
     (currentApprovalLevel e) v (approvedAt e) (rejectedAt e)
     (rejectionReason e).
Definition set_approvedAt (v : option Date) (e : t) : t :=
  mk (employee e) (company e) (amount e) (convertedAmount e)
     (category e) (description e) (expenseDate e) (status e) (approvals e)
     (currentApprovalLevel e) (finalApprover e) v (rejectedAt e)
     (rejectionReason e).
Definition set_rejectedAt (v : option Date) (e : t) : t :=
  mk (employee e) (company e) (amount e) (convertedAmount e)
     (category e) (description e) (expenseDate e) (status e) (approvals e)
     (currentApprovalLevel e) (finalApprover e) (approvedAt e) v
     (rejectionReason e).
Definition set_rejectionReason (v : option string) (e : t) : t :=
  mk (employee e) (company e) (amount e) (convertedAmount e)
     (category e) (description e) (expenseDate e) (status e) (approvals e)
     (currentApprovalLevel e) (finalApprover e) (approvedAt e)
     (rejectedAt e) v.

(** *** The schema's validators, run by [save()] *)

Definition category_enum : list string :=
  ["travel"; "food"; "accommodation"; "transportation"; "office_supplies";
   "entertainment"; "other"].
Definition status_enum : list string :=
  ["pending"; "approved"; "rejected"; "in_review"].
Definition approval_status_enum : list string :=
  ["pending"; "approved"; "rejected"].

(** [enum: [...]] *)
Definition in_enum (enum : list string) (s : string) : bool :=
  existsb (String.eqb s) enum.
(** [required: true] on a String path: the empty string is refused. *)
Definition required (s : string) : bool := negb (String.eqb s "").

(** [trim: true] is a setter: it runs when a value is assigned to
    [description], so the document holds, and the validators see, the
    trimmed text. *)
Definition set_description (v : string) : string := trim v.

(** [type: Date, required: true]: a value that does not cast to a date
    fails validation. *)
Definition is_date (d : option Date) : bool :=
  match d with Some _ => true | None => false end.

Definition validate (e : t) : bool :=
  Qle_bool 0 (value (amount e))
  && required (currency (amount e))
  && required (currency (convertedAmount e))
  && required (category e) && in_enum category_enum (category e)
  && required (set_description (description e))
  && is_date (expenseDate e)
  && in_enum status_enum (status e)
  && forallb (λ a, in_enum approval_status_enum (Approval.status a))
             (approvals e).
End Expense.

(** ** The database *)

(** Users and expenses are only ever fetched by [_id], so their
    collections are maps from the [_id] to the other fields of the
    document. [rules] is a list, in storage order, because
    [find(...).sort(...)] returns documents in an order. *)
Record DB : Type := mkDB {
  users : gmap string User.t;
  rules : list ApprovalRule.t;
  expenses : gmap string Expense.t
}.

(** [doc.save()]: Mongoose runs the schema's validators first and rejects
    with a [ValidationError], writing nothing, when one of them fails. *)
Definition save (db : DB) (_id : ObjectId) (doc : Expense.t) : result DB :=
  if Expense.validate doc
  then Ok (mkDB (users db) (rules db) (<[_id := doc]> (expenses db)))
  else Throw "Expense validation failed".

(** ** ApprovalService *)

Module ApprovalService.

(** The filter of [ApprovalRule.find]: company, [isActive: true],
    [conditions.minAmount <= value] and [conditions.maxAmount >= value]. *)
Definition rule_query (expense : Expense.t) (rule : ApprovalRule.t) : bool :=
  String.eqb (ApprovalRule.company rule) (Expense.company expense)
  && ApprovalRule.isActive rule
  && Qle_bool (ApprovalRule.minAmount (ApprovalRule.conditions rule))
              (Expense.value (Expense.convertedAmount expense))
  && Qle_bool (Expense.value (Expense.convertedAmount expense))
              (ApprovalRule.maxAmount (ApprovalRule.conditions rule)).

(** [.sort({ priority: -1 })]: [a] is not after [b] when its priority is
    at least that of [b]. MongoDB leaves the order of rules of equal
    priority open; the model keeps them in storage order, and no theorem
    below depends on that choice. *)
Definition priority_desc (a b : ApprovalRule.t) : bool :=
  ApprovalRule.priority b <=? ApprovalRule.priority a.

Definition find_rules (db : DB) (expense : Expense.t) : list ApprovalRule.t :=
  stable_sort priority_desc (filter (λ r, rule_query expense r = true) (rules db)).

(** [(a, b) => a.sequence - b.sequence] *)
Definition by_sequence (a b : Approval.t) : bool :=
  Approval.sequence a <=? Approval.sequence b.

(** [User.findById(expense.employee)] followed by [employee.manager]:
    reading [.manager] of [null] throws, and the [catch] turns every
    exception into 'Failed to determine approvers'. *)
Definition employee_manager (db : DB) (expense : Expense.t)
  : result (option ObjectId) :=
  match users db !! Expense.employee expense with
  | Some employee => Ok (User.manager employee)
  | None => Throw "Failed to determine approvers"
  end.

(** [approver.sequence + (rule.rules.requireManagerApproval ? 1 : 0)]: an
    addition of doubles, which rounds from 2^53 on. *)
Definition shifted (rule : ApprovalRule.t) (approver : ApprovalRule.Approver)
  : Z :=
  js_add (ApprovalRule.sequence approver)
         (if ApprovalRule.requireManagerApproval (ApprovalRule.rules rule)
          then 1 else 0).

(** The callback of [rule.approvers.forEach]; [.populate('approvers.user')]
    leaves [null] for a user that no longer exists, and [approver.user._id]
    then throws. *)
Definition rule_step (db : DB) (rule : ApprovalRule.t)
    (approver : ApprovalRule.Approver) : result Approval.t :=
  match users db !! ApprovalRule.user approver with
  | Some _ =>
      Ok (Approval.pending (ApprovalRule.user approver)
                           (shifted rule approver))
  | None => Throw "Failed to determine approvers"
  end.

Definition determineApprovers (db : DB) (expense : Expense.t)
  : result (list Approval.t) :=
  match find_rules db expense with
  | [] =>
      (* Default approval flow: just manager *)
      manager ← employee_manager db expense ;
      match manager with
      | Some m => Ok [Approval.pending m 1]
      | None => Ok []
      end
  | rule :: _ =>
      (* Use highest priority rule *)
      first ←
        (if ApprovalRule.requireManagerApproval (ApprovalRule.rules rule)
         then
           manager ← employee_manager db expense ;
           match manager with
           | Some m => Ok [Approval.pending m 0]
           | None => Ok []
           end
         else Ok []) ;
      rest ← mapM (rule_step db rule) (ApprovalRule.approvers rule) ;
      Ok (stable_sort by_sequence (first ++ rest)%list)
  end.

(** *** processApproval *)

(** The callback of [expense.approvals.findIndex]. The approvals were
    loaded with [.populate('approvals.approver')], which leaves [null]
    for a user that no longer exists; [approval.approver._id] then
    throws. [Ok None] is the index [-1]. *)
Fixpoint findIndex_pending (db : DB) (approverId : ObjectId)
    (approvals : list Approval.t) (index : nat) : result (option nat) :=
  match approvals with
  | [] => Ok None
  | approval :: rest =>
      match users db !! Approval.approver approval with
      | None => Throw "Cannot read properties of null (reading '_id')"
      | Some _ =>
          if String.eqb (Approval.approver approval) approverId
             && String.eqb (Approval.status approval) "pending"
          then Ok (Some index)
          else findIndex_pending db approverId rest (S index)
      end
  end.

(** [expense.approvals.find((approval, index) =>
      index > approvalIndex && approval.status === 'pending')] *)
Definition nextPendingApproval (approvals : list Approval.t)
    (approvalIndex : nat) : option Approval.t :=
  find_from (λ approval index,
               (approvalIndex <? index)%nat
               && String.eqb (Approval.status approval) "pending")
            approvals 0%nat.

(** The in-memory update of [processApproval], lines 82-105: the step at
    [approvalIndex] is decided, then the expense status follows. *)
Definition applyDecision (expense : Expense.t) (approvalIndex : nat)
    (approverId : ObjectId) (decision : string) (comments : option string)
    (now : Date) : Expense.t :=
  let expense :=
    Expense.set_approvals
      (alter (Approval.decided decision comments now) approvalIndex
             (Expense.approvals expense)) expense in
  if String.eqb decision "rejected" then
    Expense.set_rejectionReason comments
      (Expense.set_rejectedAt (Some now)
         (Expense.set_status "rejected" expense))
  else if String.eqb decision "approved" then
    (* Check if this completes the approval process *)
    match nextPendingApproval (Expense.approvals expense) approvalIndex with
    | None =>
        (* All approvals complete *)
        Expense.set_finalApprover (Some approverId)
          (Expense.set_approvedAt (Some now)
             (Expense.set_status "approved" expense))
    | Some next =>
        Expense.set_currentApprovalLevel (Approval.sequence next) expense
    end
  else expense.

Definition processApproval (db : DB) (now : Date) (expenseId : ObjectId)
    (approverId : ObjectId) (decision : string) (comments : option string)
  : result (DB * Expense.t) :=
  match expenses db !! expenseId with
  | None => Throw "Expense not found"
  | Some expense =>
      (* Find the approval entry *)
      found ← findIndex_pending db approverId (Expense.approvals expense) 0 ;
      match found with
      | None => Throw "Approval not found or already processed"
      | Some approvalIndex =>
          let expense :=
            applyDecision expense approvalIndex approverId decision
                          comments now in
          db' ← save db expenseId expense ;
          Ok (db', expense)
      end
  end.

End ApprovalService.

(** ** The controllers *)

(** [req.user], set by the [auth] middleware: the signed-in user with the
    company populated. *)
Record ReqUser : Type := mkReqUser {
  user_id : ObjectId;
  company_id : ObjectId;
  company_currency : string
}.

(** [res.status(code).json({ message, expense })] *)
Record Response : Type := mkResponse {
  code : nat;
  message : string;
  expense : option Expense.t
}.

Module ExpenseController.

(** The value of [amount] in the body of a request. *)
Inductive AmountInput : Type :=
| NoAmount                         (* absent, [null] or the empty string *)
| NumberAmount (n : Q)             (* a JSON number *)
| TextAmount (parsed : option Q).  (* a string that is not empty, with the
                                      number that [parseFloat] reads from
                                      it; [None] is [NaN] *)

(** [!amount] is false for these. *)
Definition truthy (amount : AmountInput) : bool :=
  match amount with
  | NoAmount => false
  | NumberAmount n => negb (Qeq_bool n 0)
  | TextAmount _ => true
  end.

(** [parseFloat(amount)]; [None] is [NaN]. A number is read back from
    its own decimal text. *)
Definition parseFloat (amount : AmountInput) : option Q :=
  match amount with
  | NoAmount => None
  | NumberAmount n => Some n
  | TextAmount parsed => parsed
  end.

(** The value of [expenseDate] in the body of a request. *)
Inductive DateInput : Type :=
| NoDate              (* absent, [null] or the empty string *)
| InvalidDate         (* a text from which [new Date] reads no date *)
| ADate (d : Date).   (* a text from which [new Date] reads [d] *)

(** [new Date(expenseDate)]; [None] is [Invalid Date]. *)
Definition newDate (expenseDate : DateInput) : option Date :=
  match expenseDate with
  | ADate d => Some d
  | NoDate | InvalidDate => None
  end.

(** [req.body] of [POST /expenses]. *)
Record CreateBody : Type := mkCreateBody {
  amount : AmountInput;
  currency : string;
  category : string;
  description : string;
  expenseDate : DateInput
}.

(** [createExpense]. The arguments are what the environment supplies:
    - [convertCurrency]: [CurrencyService.convertCurrency], a lookup
      against an exchange-rate web service;
    - [newId]: the [_id] that [new Expense] generates;
    - [now]: [new Date()].
    The receipt upload and its OCR only fill [receipt] and [ocrData];
    the auto-fill assignments below them are guarded by [!amount],
    [!expenseDate] and [!category], which are false past the first
    check. *)
Definition createExpense
    (convertCurrency : Q → string → string → result Q)
    (db : DB) (now : Date) (newId : ObjectId)
    (employee : ReqUser) (body : CreateBody) : DB * Response :=
  (* Validate required fields *)
  if negb (truthy (amount body))
     || negb (Expense.required (currency body))
     || negb (Expense.required (category body))
     || negb (Expense.required (description body))
     || match expenseDate body with NoDate => true | _ => false end
  then (db, mkResponse 400 "All fields are required" None)
  else
  (* Validate amount *)
  match parseFloat (amount body) with
  | None => (db, mkResponse 400 "Invalid amount" None)
  | Some numAmount =>
    if Qle_bool numAmount 0
    then (db, mkResponse 400 "Invalid amount" None)
    else
      let outcome : result (DB * Expense.t) :=
        convertedAmount ←
          convertCurrency numAmount (currency body)
                          (company_currency employee) ;
        let expense :=
          Expense.mk (user_id employee) (company_id employee)
            (Expense.mkMoney numAmount (currency body))
            (Expense.mkMoney convertedAmount (company_currency employee))
            (category body) (Expense.set_description (description body))
            (newDate (expenseDate body))
            "pending" [] 0 None None None None in
        (* Determine approvers *)
        approvers ← ApprovalService.determineApprovers db expense ;
        let expense := Expense.set_approvals approvers expense in
        let expense :=
          match approvers with
          | first :: _ =>
              Expense.set_currentApprovalLevel (Approval.sequence first)
                (Expense.set_status "in_review" expense)
          | [] =>
              (* Auto-approve if no approvers needed *)
              Expense.set_approvedAt (Some now)
                (Expense.set_status "approved" expense)
          end in
        db' ←
          match expenses db !! newId with
          | Some _ => Throw "E11000 duplicate key error"
          | None => save db newId expense
          end ;
        Ok (db', expense) in
      match outcome with
      | Ok (db', savedExpense) =>
          (db', mkResponse 201 "Expense created successfully"
                           (Some savedExpense))
      | Throw _ => (db, mkResponse 500 "Failed to create expense" None)
      end
  end.

(** [Expense.findOne({ _id: id, employee: user._id, status: 'pending' })] *)
Definition findOwnPending (db : DB) (id : ObjectId) (user : ReqUser)
  : option Expense.t :=
  match expenses db !! id with
  | Some expense =>
      if String.eqb (Expense.employee expense) (user_id user)
         && String.eqb (Expense.status expense) "pending"
      then Some expense else None
  | None => None
  end.

(** [req.body] of [PUT /expenses/:id]; [None] is [undefined]. An
    [expenseDate] is given as the date that the schema casts it to,
    [None] when the cast fails. *)
Record UpdateBody : Type := mkUpdateBody {
  u_amount : option Q;
  u_currency : option string;
  u_category : option string;
  u_description : option string;
  u_expenseDate : option (option Date)
}.

(** [updates.amount || updates.currency]: a number is truthy unless it
    is zero, a string unless it is empty. *)
Definition amount_or_currency (updates : UpdateBody) : bool :=
  from_option (λ a, negb (Qeq_bool a 0)) false (u_amount updates)
  || from_option Expense.required false (u_currency updates).

Definition updateExpense
    (convertCurrency : Q → string → string → result Q)
    (db : DB) (id : ObjectId) (user : ReqUser) (updates : UpdateBody)
  : DB * Response :=
  match findOwnPending db id user with
  | None => (db, mkResponse 404 "Expense not found or cannot be updated" None)
  | Some e =>
      (* Update allowed fields *)
      let amount :=
        Expense.mkMoney
          (default (Expense.value (Expense.amount e)) (u_amount updates))
          (default (Expense.currency (Expense.amount e)) (u_currency updates)) in
      let outcome : result (DB * Expense.t) :=
        (* Recalculate converted amount if amount or currency changed *)
        converted ←
          (if amount_or_currency updates
           then
             v ← convertCurrency (Expense.value amount)
                   (Expense.currency amount) (company_currency user) ;
             Ok (Expense.mkMoney v
                   (Expense.currency (Expense.convertedAmount e)))
           else Ok (Expense.convertedAmount e)) ;
        let expense :=
          Expense.mk (Expense.employee e) (Expense.company e)
            amount converted
            (default (Expense.category e) (u_category updates))
            (default (Expense.description e)
                     (Expense.set_description <$> u_description updates))
            (default (Expense.expenseDate e) (u_expenseDate updates))
            (Expense.status e) (Expense.approvals e)
            (Expense.currentApprovalLevel e) (Expense.finalApprover e)
            (Expense.approvedAt e) (Expense.rejectedAt e)
            (Expense.rejectionReason e) in
        db' ← save db id expense ;
        Ok (db', expense) in
      match outcome with
      | Ok (db', expense) =>
          (db', mkResponse 200 "Expense updated successfully" (Some expense))
      | Throw _ => (db, mkResponse 500 "Failed to update expense" None)
      end
  end.

Definition deleteExpense (db : DB) (id : ObjectId) (user : ReqUser)
  : DB * Response :=
  match findOwnPending db id user with
  | None => (db, mkResponse 404 "Expense not found or cannot be deleted" None)
  | Some _ =>
      (mkDB (users db) (rules db) (delete id (expenses db)),
       mkResponse 200 "Expense deleted successfully" None)
  end.

(** [['approved', 'rejected'].includes(decision)] *)
Definition valid_decision (decision : string) : bool :=
  String.eqb decision "approved" || String.eqb decision "rejected".

Definition approveExpense (db : DB) (now : Date) (id : ObjectId)
    (approver : ReqUser) (decision : string) (comments : option string)
  : DB * Response :=
  if negb (valid_decision decision)
  then (db, mkResponse 400 "Invalid decision" None)
  else
    match ApprovalService.processApproval db now id (user_id approver)
                                          decision comments with
    | Ok (db', expense) =>
        (db', mkResponse 200 ("Expense " +:+ decision +:+ " successfully")
                         (Some expense))
    | Throw msg => (db, mkResponse 500 msg None)
    end.

End ExpenseController.

Module AdminController.

(** [Expense.findOne({ _id: id, company: admin.company._id })] *)
Definition findInCompany (db : DB) (id : ObjectId) (admin : ReqUser)
  : option Expense.t :=
  match expenses db !! id with
  | Some expense =>
      if String.eqb (Expense.company expense) (company_id admin)
      then Some expense else None
  | None => None
  end.

(** The callback of [expense.approvals.forEach]:
    mark a pending approval as overridden. *)
Definition override_step (now : Date) (approval : Approval.t) : Approval.t :=
  if String.eqb (Approval.status approval) "pending"
  then Approval.decided "overridden" (Some "Overridden by admin") now approval
  else approval.

(** The in-memory update of [overrideApproval], between [findOne] and
    [save]. *)
Definition applyOverride (expense : Expense.t) (admin : ReqUser)
    (decision : string) (comments : option string) (now : Date)
  : Expense.t :=
  (* Override the approval process *)
  let expense :=
    Expense.set_finalApprover (Some (user_id admin))
      (Expense.set_status decision expense) in
  let expense :=
    if String.eqb decision "approved"
    then Expense.set_approvedAt (Some now) expense
    else Expense.set_rejectionReason comments
           (Expense.set_rejectedAt (Some now) expense) in
  (* Mark all pending approvals as overridden *)
  Expense.set_approvals
    (override_step now <$> Expense.approvals expense) expense.

Definition overrideApproval (db : DB) (now : Date) (id : ObjectId)
    (admin : ReqUser) (decision : string) (comments : option string)
  : DB * Response :=
  if negb (ExpenseController.valid_decision decision)
  then (db, mkResponse 400 "Invalid decision" None)
  else
    match findInCompany db id admin with
    | None => (db, mkResponse 404 "Expense not found" None)
    | Some expense =>
        let expense := applyOverride expense admin decision comments now in
        match save db id expense with
        | Ok db' =>
            (db', mkResponse 200
                    ("Expense " +:+ decision
                     +:+ " successfully (admin override)")
                    (Some expense))
        | Throw _ => (db, mkResponse 500 "Failed to override approval" None)
        end
    end.

End AdminController.

(** ** The requests that write the expense collection

    [createExpense], [updateExpense], [deleteExpense], [approveExpense]
    and [overrideApproval] are the only code that writes an expense. User
    and rule management writes the other two collections only;
    [Administration] stands for any such change. *)
Inductive Request : Type :=
| CreateExpense (convertCurrency : Q → string → string → result Q)
    (now : Date) (newId : ObjectId) (employee : ReqUser)
    (body : ExpenseController.CreateBody)
| UpdateExpense (convertCurrency : Q → string → string → result Q)
    (id : ObjectId) (user : ReqUser) (updates : ExpenseController.UpdateBody)
| DeleteExpense (id : ObjectId) (user : ReqUser)
| ApproveExpense (now : Date) (id : ObjectId) (approver : ReqUser)
    (decision : string) (comments : option string)
| OverrideApproval (now : Date) (id : ObjectId) (admin : ReqUser)
    (decision : string) (comments : option string)
| Administration (users' : gmap string User.t) (rules' : list ApprovalRule.t).

Definition handle (db : DB) (request : Request) : DB :=
  match request with
  | CreateExpense convertCurrency now newId employee body =>
      (ExpenseController.createExpense convertCurrency db now newId employee
         body).1
  | UpdateExpense convertCurrency id user updates =>
      (ExpenseController.updateExpense convertCurrency db id user updates).1
  | DeleteExpense id user => (ExpenseController.deleteExpense db id user).1
  | ApproveExpense now id approver decision comments =>
      (ExpenseController.approveExpense db now id approver decision comments).1
  | OverrideApproval now id admin decision comments =>
      (AdminController.overrideApproval db now id admin decision comments).1
  | Administration users' rules' => mkDB users' rules' (expenses db)
  end.

(** The store after a history of requests, starting with no expense. *)
Definition serve (users0 : gmap string User.t) (rules0 : list ApprovalRule.t)
    (history : list Request) : DB :=
  foldl handle (mkDB users0 rules0 ∅) history.

(** Every stored expense passed the validators of the schema. *)
Definition all_valid (db : DB) : Prop :=
  ∀ id e, expenses db !! id = Some e → Expense.validate e = true.

(** A client that posts the decisions of [deciders], one after the other,
    to [POST /expenses/:id/approve]; the clock advances between the
    requests. [approveExpense] reads nothing but the [_id] of [req.user]. *)
Fixpoint decisions (db : DB) (now : Date) (id : ObjectId)
    (deciders : list (ObjectId * string)) : DB :=
  match deciders with
  | [] => db
  | (who, decision) :: rest =>
      decisions
        (ExpenseController.approveExpense db now id (mkReqUser who "" "")
           decision None).1
        (now + 1) id rest
  end.

(** ** AdminController.createApprovalRule *)

Module RuleAdmin.

(** [req.body] of [POST /admin/approval-rules]; [None] is an absent
    field. [name] is the name as the schema's [trim] leaves it. *)
Record ConditionsBody : Type := mkConditionsBody {
  b_minAmount : option Q;
  b_maxAmount : option Q;
  b_categories : option (list string);
  b_departments : option (list string)
}.

Record ApproverBody : Type := mkApproverBody {
  b_user : ObjectId;
  b_sequence : option Z;
  b_isRequired : option bool
}.

Record RulesBody : Type := mkRulesBody {
  b_type : option string;
  b_percentageRequired : option Z;
  b_specificApprovers : option (list ObjectId);
  b_requireManagerApproval : option bool
}.

Record Body : Type := mkBody {
  b_name : string;
  b_conditions : option ConditionsBody;
  b_approvers : option (list ApproverBody);
  b_rules : option RulesBody;
  b_priority : option Z
}.

(** [Number.MAX_SAFE_INTEGER] *)
Definition MAX_SAFE_INTEGER : Q := 9007199254740991.

Definition type_enum : list string :=
  ["sequential"; "percentage"; "specific_approver"; "hybrid"].

(** [User.find({ _id: { $in: approverIds }, company: admin.company._id,
      role: { $in: ['admin', 'manager'] } })]: every user is found at
    most once, however often the [_id] occurs in [approverIds]. *)
Definition validApprovers (db : DB) (admin : ReqUser)
    (approverIds : list ObjectId) : gmap string User.t :=
  filter (λ kv : string * User.t,
            kv.1 ∈ approverIds
            ∧ User.company kv.2 = company_id admin
            ∧ (User.role kv.2 = "admin" ∨ User.role kv.2 = "manager"))
         (users db).

(** [new ApprovalRule({...})] fills in the defaults of the schema; the
    validators of [save] then ask for a name, a sequence for every
    approver, a type of the enum and a percentage between 1 and 100, and
    reject with a [ValidationError] otherwise. *)
Definition approverOf (a : ApproverBody) : result ApprovalRule.Approver :=
  match b_sequence a with
  | Some sequence =>
      Ok (ApprovalRule.mkApprover (b_user a) sequence
            (default true (b_isRequired a)))
  | None => Throw "ApprovalRule validation failed"
  end.

Definition conditionsOf (c : option ConditionsBody) : ApprovalRule.Conditions :=
  ApprovalRule.mkConditions
    (default 0%Q (c ≫= b_minAmount))
    (default MAX_SAFE_INTEGER (c ≫= b_maxAmount))
    (default [] (c ≫= b_categories))
    (default [] (c ≫= b_departments)).

Definition rulesOf (r : option RulesBody) : result ApprovalRule.Rules :=
  let type := default "sequential" (r ≫= b_type) in
  let percentage := r ≫= b_percentageRequired in
  if Expense.in_enum type_enum type
     && from_option (λ p, (1 <=? p) && (p <=? 100)) true percentage
  then Ok (ApprovalRule.mkRules type percentage
             (default [] (r ≫= b_specificApprovers))
             (default true (r ≫= b_requireManagerApproval)))
  else Throw "ApprovalRule validation failed".

Definition newRule (admin : ReqUser) (body : Body)
    (approvers : list ApproverBody) : result ApprovalRule.t :=
  if Expense.required (b_name body) then
    approvers ← mapM approverOf approvers ;
    rules ← rulesOf (b_rules body) ;
    Ok (ApprovalRule.mk (company_id admin) (b_name body)
          (conditionsOf (b_conditions body)) approvers rules true
          (match b_priority body with
           | Some 0 | None => 1
           | Some priority => priority
           end))
  else Throw "ApprovalRule validation failed".

(** The response carries no expense; a created rule is the last of
    [rules]. *)
Definition createApprovalRule (db : DB) (admin : ReqUser) (body : Body)
  : DB * Response :=
  match b_approvers body with
  | None =>
      (* approvers.map throws *)
      (db, mkResponse 500 "Failed to create approval rule" None)
  | Some approvers =>
      (* Validate approvers exist in company *)
      let approverIds := b_user <$> approvers in
      if negb (size (validApprovers db admin approverIds)
               =? length approverIds)%nat
      then (db, mkResponse 400 "Some approvers are invalid" None)
      else
        match newRule admin body approvers with
        | Ok approvalRule =>
            (mkDB (users db) (rules db ++ [approvalRule]) (expenses db),
             mkResponse 201 "Approval rule created successfully" None)
        | Throw _ =>
            (db, mkResponse 500 "Failed to create approval rule" None)
        end
  end.

End RuleAdmin.

(** ** UserController.deleteUser *)

Module UserController.

(** [Expense.countDocuments({ employee: user._id,
      status: { $in: ['pending', 'in_review'] } })] *)
Definition pendingExpenses (db : DB) (employee : ObjectId) : nat :=
  size (filter (λ kv : string * Expense.t,
                  Expense.employee kv.2 = employee
                  ∧ (Expense.status kv.2 = "pending"
                     ∨ Expense.status kv.2 = "in_review"))
               (expenses db)).

Definition deleteUser (db : DB) (id : ObjectId) (admin : ReqUser)
  : DB * Response :=
  match users db !! id with
  | None => (db, mkResponse 404 "User not found" None)
  | Some user =>
      if negb (String.eqb (User.company user) (company_id admin))
      then (db, mkResponse 404 "User not found" None)
      else if String.eqb (User.role user) "admin"
      then (db, mkResponse 400 "Cannot delete admin user" None)
      else
        (* Check if user has pending expenses *)
        if (0 <? pendingExpenses db id)%nat
        then (db, mkResponse 400 "Cannot delete user with pending expenses"
                             None)
        else (mkDB (delete id (users db)) (rules db) (expenses db),
              mkResponse 200 "User deleted successfully" None)
  end.

End UserController.

(** ** The list of pending approvals *)

Module PendingApprovals.

(** The filter that [ApprovalService.getPendingApprovals] and
    [ExpenseController.getPendingApprovals] hand to [Expense.find]:
    [{ 'approvals.approver': approverId, 'approvals.status': 'pending',
       status: { $in: ['pending', 'in_review'] } }].
    A condition on a field of an array of sub-documents holds when some
    element satisfies it; the two conditions on [approvals] are separate,
    so they may hold of different elements. *)
Definition query (approverId : ObjectId) (e : Expense.t) : bool :=
  existsb (λ a, String.eqb (Approval.approver a) approverId)
          (Expense.approvals e)
  && existsb (λ a, String.eqb (Approval.status a) "pending")
             (Expense.approvals e)
  && (String.eqb (Expense.status e) "pending"
      || String.eqb (Expense.status e) "in_review").

(** The documents that the query returns. Their order (by [createdAt], a
    timestamp that the records here do not keep), the pagination and the
    populated references are left out. *)
Definition getPendingApprovals (db : DB) (approverId : ObjectId)
  : gmap string Expense.t :=
  filter (λ kv : string * Expense.t, query approverId kv.2 = true)
         (expenses db).

End PendingApprovals.

(** ** Requests and the expenses they address *)

(** The [_id] in the route of a request, or the one it creates. *)
Definition target (request : Request) : option ObjectId :=
  match request with
  | CreateExpense _ _ newId _ _ => Some newId
  | UpdateExpense _ id _ _ => Some id
  | DeleteExpense id _ => Some id
  | ApproveExpense _ id _ _ _ => Some id
  | OverrideApproval _ id _ _ _ => Some id
  | Administration _ _ => None
  end.

(** Every stored expense is in review, approved or rejected. *)
Definition in_workflow (db : DB) : Prop :=
  ∀ id e, expenses db !! id = Some e →
    Expense.status e = "in_review" ∨ Expense.status e = "approved"
    ∨ Expense.status e = "rejected".

(** The stamps that go with a status. *)
Definition stamped (db : DB) : Prop :=
  ∀ id e, expenses db !! id = Some e →
    (Expense.status e = "approved" → is_Some (Expense.approvedAt e))
    ∧ (Expense.status e = "rejected" → is_Some (Expense.rejectedAt e))
    ∧ (Expense.status e = "in_review" → Expense.approvals e ≠ []).

(** The members of a chain: who decides, at which sequence. *)
Definition members (e : Expense.t) : list (ObjectId * Z) :=
  (λ a, (Approval.approver a, Approval.sequence a)) <$> Expense.approvals e.

(** ** The specification's own wording

    Definitions that follow the text of the specification rather than the
    code; the theorems compare the code against them. *)

Module Spec.

(** "an expense matches a rule iff its converted amount lies in
    [minAmount, maxAmount] and (categories empty or contains expense
    category) and (departments empty or contains employee
    department)". *)
Definition rule_matches (db : DB) (expense : Expense.t)
    (rule : ApprovalRule.t) : Prop :=
  let c := ApprovalRule.conditions rule in
  (ApprovalRule.minAmount c
     <= Expense.value (Expense.convertedAmount expense))%Q
  ∧ (Expense.value (Expense.convertedAmount expense)
       <= ApprovalRule.maxAmount c)%Q
  ∧ (ApprovalRule.categories c = []
     ∨ Expense.category expense ∈ ApprovalRule.categories c)
  ∧ (ApprovalRule.departments c = []
     ∨ ∃ employee, users db !! Expense.employee expense = Some employee
         ∧ User.department employee ∈ ApprovalRule.departments c).

(** "optionally the manager at sequence 0 (if requireManagerApproval),
    followed by the rule's configured approvers with their sequence
    shifted by +1 if manager was prepended ... Sort the final chain
    ascending by sequence." *)
Definition chain (manager : option ObjectId) (rule : ApprovalRule.t)
  : list Approval.t :=
  let first :=
    match ApprovalRule.requireManagerApproval (ApprovalRule.rules rule),
          manager with
    | true, Some m => [Approval.pending m 0]
    | _, _ => []
    end in
  let shift := match first with [] => 0 | _ :: _ => 1 end in
  stable_sort ApprovalService.by_sequence
    (first ++ ((λ a, Approval.pending (ApprovalRule.user a)
                       (ApprovalRule.sequence a + shift))
               <$> ApprovalRule.approvers rule))%list.

(** "ceil(T/100 * N) distinct approvals" *)
Definition required_approvals (T : Z) (N : nat) : Z :=
  (T * Z.of_nat N + 99) / 100.

End Spec.

(** ** Scenarios

    The concrete company used by the examples below: an employee with a
    manager, an employee without one, three further managers and an
    administrator. *)

Module Scenario.

Definition person (role : string) (manager : option ObjectId) : User.t :=
  User.mk "acme" role "sales" manager.

Definition staff : gmap string User.t :=
  list_to_map
    [("emp", person "employee" (Some "mgr"));
     ("solo", person "employee" None);
     ("mgr", person "manager" None);
     ("M1", person "manager" None);
     ("M2", person "manager" None);
     ("M3", person "manager" None);
     ("root", person "admin" None)].

Definition req (id : ObjectId) : ReqUser := mkReqUser id "acme" "USD".

Definition amounts (lo hi : Q) (categories : list string)
  : ApprovalRule.Conditions :=
  ApprovalRule.mkConditions lo hi categories [].

Definition step (user : ObjectId) (sequence : Z) : ApprovalRule.Approver :=
  ApprovalRule.mkApprover user sequence true.

(** Rule A of the specification: sequential, M1 then M2, priority 1. *)
Definition ruleA : ApprovalRule.t :=
  ApprovalRule.mk "acme" "A" (amounts 0 1000 [])
    [step "M1" 0; step "M2" 1]
    (ApprovalRule.mkRules "sequential" None [] false) true 1.

(** Rule B of the specification: percentage 50%, M1, M2, M3, priority 5. *)
Definition ruleB : ApprovalRule.t :=
  ApprovalRule.mk "acme" "B" (amounts 0 1000 [])
    [step "M1" 0; step "M2" 1; step "M3" 2]
    (ApprovalRule.mkRules "percentage" (Some 50) [] false) true 5.

(** A rule for travel expenses only. *)
Definition ruleTravel : ApprovalRule.t :=
  ApprovalRule.mk "acme" "travel" (amounts 0 1000 ["travel"])
    [step "M1" 0]
    (ApprovalRule.mkRules "sequential" None [] false) true 1.

(** A rule that asks for the manager first. *)
Definition ruleManager : ApprovalRule.t :=
  ApprovalRule.mk "acme" "manager first" (amounts 0 1000 [])
    [step "M1" 0]
    (ApprovalRule.mkRules "sequential" None [] true) true 1.

(** A rule that asks for the manager first and names, as its only
    approver, the user who is also the manager of "emp". *)
Definition ruleOwnManager : ApprovalRule.t :=
  ApprovalRule.mk "acme" "manager twice" (amounts 0 1000 [])
    [step "mgr" 0]
    (ApprovalRule.mkRules "sequential" None [] true) true 1.

Definition company (rules : list ApprovalRule.t) : DB := mkDB staff rules ∅.

(** No exchange-rate service is needed: every amount is in USD. *)
Definition sameCurrency (amount : Q) (from to : string) : result Q :=
  if String.eqb from to then Ok amount
  else Throw "Failed to convert currency".

Definition lunch : ExpenseController.CreateBody :=
  ExpenseController.mkCreateBody
    (ExpenseController.NumberAmount 500) "USD" "food" "team lunch"
    (ExpenseController.ADate 1714521600000).

(** The document that [createExpense] builds for [lunch] before it asks
    for the approvers. *)
Definition draft (who : ObjectId) : Expense.t :=
  Expense.mk who "acme" (Expense.mkMoney 500 "USD")
    (Expense.mkMoney 500 "USD") "food" "team lunch" (Some 1714521600000)
    "pending" [] 0 None None None None.

(** The draft once it has entered review with [chain]. *)
Definition review (who : ObjectId) (chain : list Approval.t) : Expense.t :=
  Expense.set_status "in_review" (Expense.set_approvals chain (draft who)).

(** [POST /expenses] by [who]; the expense gets the [_id] "x1". *)
Definition submit (rules : list ApprovalRule.t) (who : ObjectId) : DB :=
  (ExpenseController.createExpense sameCurrency (company rules) 10 "x1"
     (req who) lunch).1.

End Scenario.

(** * Properties *)

(** ** Inversion of [bind] and [mapM] *)

Lemma bind_Ok {A B} (r : result A) (k : A → result B) (b : B) :
  r ≫= k = Ok b ↔ ∃ a, r = Ok a ∧ k a = Ok b.
Proof.
  destruct r as [a|msg]; simpl.
  - split; [by exists a|]. by intros (? & [= <-] & ?).
  - split; [done|]. by intros (? & ? & ?).
Qed.

Lemma mapM_Ok {A B} (f : A → result B) (l : list A) (l' : list B) :
  mapM f l = Ok l' ↔ Forall2 (λ x y, f x = Ok y) l l'.
Proof.
  revert l'. induction l as [|x l IH]; intros l'; cbn [mapM].
  - split; [intros [= <-]; constructor|]. by inversion 1.
  - rewrite bind_Ok. split.
    + intros (y & Hy & H). apply bind_Ok in H as (ys & Hys & [= <-]).
      constructor; [done|]. by apply IH.
    + inversion 1 as [|? y ? ys Hy Hys]; subst. exists y. split; [done|].
      apply bind_Ok. exists ys. split; [by apply IH|done].
Qed.

(** ** The stable sort *)

Section SortFacts.
Context {A : Type} (le : A → A → bool).

Lemma insert_sorted_perm (x : A) (l : list A) :
  insert_sorted le x l ≡ₚ x :: l.
Proof.
  induction l as [|y l IH]; simpl; [done|].
  destruct (le x y); [done|].
  rewrite IH. apply Permutation_swap.
Qed.

Lemma stable_sort_perm (l : list A) : stable_sort le l ≡ₚ l.
Proof.
  induction l as [|x l IH]; simpl; [done|].
  rewrite insert_sorted_perm. by rewrite IH.
Qed.

Lemma stable_sort_nil_inv (l : list A) : stable_sort le l = [] → l = [].
Proof.
  intros H. apply Permutation_nil_r. rewrite <- H.
  symmetry. apply stable_sort_perm.
Qed.

Hypothesis le_total : ∀ x y, le x y = false → le y x = true.
Hypothesis le_trans : ∀ x y z, le x y = true → le y z = true → le x z = true.

Lemma insert_sorted_sorted (x : A) (l : list A) :
  StronglySorted (λ a b, le a b = true) l →
  StronglySorted (λ a b, le a b = true) (insert_sorted le x l).
Proof.
  induction 1 as [|y l Hl IH Hy]; simpl.
  - repeat constructor.
  - destruct (le x y) eqn:Hxy.
    + constructor; [by constructor|].
      constructor; [done|].
      eapply Forall_impl; [exact Hy|]. intros z Hz. by eapply le_trans.
    + constructor; [done|].
      rewrite insert_sorted_perm. constructor; [|done].
      by apply le_total.
Qed.

Lemma stable_sort_sorted (l : list A) :
  StronglySorted (λ a b, le a b = true) (stable_sort le l).
Proof.
  induction l as [|x l IH]; simpl; [constructor|].
  by apply insert_sorted_sorted.
Qed.

(** Stability: elements that the comparator cannot tell apart keep their
    relative order. [P] selects one class of such elements. *)
Lemma insert_sorted_stable (P : A → Prop) `{!∀ x, Decision (P x)}
    (x : A) (s : list A) :
  (∀ x y, P x → P y → le x y = true) →
  filter P (insert_sorted le x s) = filter P (x :: s).
Proof.
  intros HP. induction s as [|y s IHs]; [done|].
  change (insert_sorted le x (y :: s))
    with (if le x y then x :: y :: s else y :: insert_sorted le x s).
  destruct (le x y) eqn:Hxy; [done|].
  rewrite (filter_cons _ y), IHs, !filter_cons.
  destruct (decide (P x)) as [Hx|Hx], (decide (P y)) as [Hy|Hy]; try done.
  specialize (HP x y Hx Hy). congruence.
Qed.

Lemma stable_sort_stable (P : A → Prop) `{!∀ x, Decision (P x)} (l : list A) :
  (∀ x y, P x → P y → le x y = true) →
  filter P (stable_sort le l) = filter P l.
Proof.
  intros HP. induction l as [|x l IH]; [done|].
  change (stable_sort le (x :: l))
    with (insert_sorted le x (stable_sort le l)).
  rewrite insert_sorted_stable by done.
  by rewrite !filter_cons, IH.
Qed.
End SortFacts.

(** ** Rule selection *)

Section RuleSelection.
Import ApprovalService.

Lemma rule_query_iff (expense : Expense.t) (rule : ApprovalRule.t) :
  rule_query expense rule = true ↔
    ApprovalRule.company rule = Expense.company expense
    ∧ ApprovalRule.isActive rule = true
    ∧ (ApprovalRule.minAmount (ApprovalRule.conditions rule)
         <= Expense.value (Expense.convertedAmount expense))%Q
    ∧ (Expense.value (Expense.convertedAmount expense)
         <= ApprovalRule.maxAmount (ApprovalRule.conditions rule))%Q.
Proof.
  unfold rule_query.
  rewrite !andb_true_iff, String.eqb_eq, !Qle_bool_iff. tauto.
Qed.

Lemma find_rules_elem (db : DB) (expense : Expense.t) (rule : ApprovalRule.t) :
  rule ∈ find_rules db expense ↔
    rule ∈ rules db ∧ rule_query expense rule = true.
Proof.
  unfold find_rules. rewrite stable_sort_perm, list_elem_of_filter. tauto.
Qed.

Lemma priority_desc_total (a b : ApprovalRule.t) :
  priority_desc a b = false → priority_desc b a = true.
Proof. unfold priority_desc. lia. Qed.

Lemma priority_desc_trans (a b c : ApprovalRule.t) :
  priority_desc a b = true → priority_desc b c = true →
  priority_desc a c = true.
Proof. unfold priority_desc. lia. Qed.

(** The head of the sorted query result has the highest priority. *)
Lemma find_rules_head (db : DB) (expense : Expense.t)
    (rule : ApprovalRule.t) (rest : list ApprovalRule.t) :
  find_rules db expense = rule :: rest →
  ∀ r, r ∈ find_rules db expense →
       ApprovalRule.priority r ≤ ApprovalRule.priority rule.
Proof.
  intros Hfind r Hr.
  pose proof (stable_sort_sorted priority_desc priority_desc_total
                priority_desc_trans
                (filter (λ r, rule_query expense r = true) (rules db)))
    as Hsorted.
  fold (find_rules db expense) in Hsorted. rewrite Hfind in Hsorted, Hr.
  apply StronglySorted_inv in Hsorted as [_ Hall].
  apply elem_of_cons in Hr as [->|Hr]; [lia|].
  rewrite Forall_forall in Hall. specialize (Hall r Hr).
  unfold priority_desc in Hall. lia.
Qed.

Lemma find_rules_none (db : DB) (expense : Expense.t) :
  find_rules db expense = [] ↔
    ∀ r, r ∈ rules db → rule_query expense r = false.
Proof.
  split.
  - intros Hnil r Hr. destruct (rule_query expense r) eqn:Hq; [|done].
    assert (r ∈ find_rules db expense) as Hin by by apply find_rules_elem.
    rewrite Hnil in Hin. by apply elem_of_nil in Hin.
  - intros Hnone. destruct (find_rules db expense) as [|r rest] eqn:Hfind;
      [done|].
    assert (r ∈ find_rules db expense) as Hin by (rewrite Hfind; left).
    apply find_rules_elem in Hin as [Hr Hq].
    rewrite (Hnone r Hr) in Hq. done.
Qed.

Lemma by_sequence_total (a b : Approval.t) :
  by_sequence a b = false → by_sequence b a = true.
Proof. unfold by_sequence. lia. Qed.

Lemma by_sequence_trans (a b c : Approval.t) :
  by_sequence a b = true → by_sequence b c = true → by_sequence a c = true.
Proof. unfold by_sequence. lia. Qed.

Lemma sort_by_sequence_sorted (l : list Approval.t) :
  StronglySorted (λ a b, Approval.sequence a ≤ Approval.sequence b)
                 (stable_sort by_sequence l).
Proof.
  pose proof (stable_sort_sorted by_sequence by_sequence_total
                by_sequence_trans l) as H.
  induction H as [|a s Hs IH Ha]; constructor; [done|].
  eapply Forall_impl; [exact Ha|]. unfold by_sequence. intros b Hb. lia.
Qed.

(** Up to 2^53 the sum of two integers is exact. *)
Lemma to_double_exact (n : Z) : - 2 ^ 53 ≤ n ≤ 2 ^ 53 → to_double n = n.
Proof.
  intros Hn. unfold to_double.
  destruct (Z.ltb_spec (Z.abs n) (2 ^ 53)) as [|Habs]; [done|].
  assert (n = 2 ^ 53 ∨ n = - 2 ^ 53) as [-> | ->] by lia; reflexivity.
Qed.

Lemma shifted_safe (rule : ApprovalRule.t) (a : ApprovalRule.Approver) :
  isSafeInteger (ApprovalRule.sequence a) →
  shifted rule a
  = ApprovalRule.sequence a
    + (if ApprovalRule.requireManagerApproval (ApprovalRule.rules rule)
       then 1 else 0).
Proof.
  unfold isSafeInteger, shifted, js_add. intros Ha.
  apply to_double_exact.
  destruct (ApprovalRule.requireManagerApproval _); lia.
Qed.

(** From 2^53 on the shift is lost in the rounding. *)
Lemma shifted_rounds (user : ObjectId) :
  shifted Scenario.ruleManager (Scenario.step user (2 ^ 53)) = 2 ^ 53
  ∧ shifted Scenario.ruleManager (Scenario.step user (2 ^ 53 - 1)) = 2 ^ 53.
Proof. split; reflexivity. Qed.

(** The loop over [rule.approvers] succeeds when every configured
    approver is still a user. *)
Lemma mapM_rule_step (db : DB) (rule : ApprovalRule.t)
    (l : list ApprovalRule.Approver) :
  (∀ a, a ∈ l → is_Some (users db !! ApprovalRule.user a)) →
  mapM (rule_step db rule) l =
    Ok ((λ a, Approval.pending (ApprovalRule.user a) (shifted rule a))
        <$> l).
Proof.
  induction l as [|a l IH]; intros Hall; [done|].
  cbn [mapM]. rewrite IH by (intros b Hb; apply Hall; by right).
  unfold rule_step. by destruct (Hall a) as [u ->]; [left|].
Qed.

(** What [determineApprovers] computes once the query has returned
    [rule] first. *)
Lemma determineApprovers_rule (db : DB) (expense : Expense.t)
    (rule : ApprovalRule.t) (rest : list ApprovalRule.t) (employee : User.t) :
  find_rules db expense = rule :: rest →
  users db !! Expense.employee expense = Some employee →
  (∀ a, a ∈ ApprovalRule.approvers rule →
        is_Some (users db !! ApprovalRule.user a)) →
  determineApprovers db expense =
    Ok (stable_sort by_sequence
          ((match ApprovalRule.requireManagerApproval (ApprovalRule.rules rule),
                  User.manager employee with
            | true, Some m => [Approval.pending m 0]
            | _, _ => []
            end)
           ++ ((λ a, Approval.pending (ApprovalRule.user a)
                                      (shifted rule a))
               <$> ApprovalRule.approvers rule))%list).
Proof.
  intros Hfind Hemp Hall. unfold determineApprovers. rewrite Hfind.
  rewrite (mapM_rule_step db rule _ Hall). unfold employee_manager.
  rewrite Hemp.
  destruct (ApprovalRule.requireManagerApproval (ApprovalRule.rules rule));
    [|done].
  simpl. by destruct (User.manager employee).
Qed.

Lemma pending_chain_sorted (l : list Approval.t) :
  Forall (λ a, Approval.status a = "pending") l →
  Forall (λ a, Approval.status a = "pending") (stable_sort by_sequence l).
Proof. intros H. by rewrite stable_sort_perm. Qed.

(** Every chain that [determineApprovers] returns is sorted by sequence
    and entirely pending. *)
Lemma determineApprovers_shape (db : DB) (expense : Expense.t)
    (chain : list Approval.t) :
  determineApprovers db expense = Ok chain →
  StronglySorted (λ a b, Approval.sequence a ≤ Approval.sequence b) chain
  ∧ Forall (λ a, Approval.status a = "pending") chain.
Proof.
  unfold determineApprovers.
  destruct (find_rules db expense) as [|rule rest].
  - destruct (employee_manager db expense) as [[m|]|]; simpl;
      intros H; simplify_eq; repeat constructor.
  - set (first := if ApprovalRule.requireManagerApproval _ then _ else _).
    assert (∀ l, first = Ok l → Forall (λ a, Approval.status a = "pending") l)
      as Hfirst.
    { subst first. intros l.
      destruct (ApprovalRule.requireManagerApproval _);
        [|intros; simplify_eq; constructor].
      destruct (employee_manager db expense) as [[m|]|]; simpl;
        intros; simplify_eq; repeat constructor. }
    destruct first as [l1|]; simpl; [|done].
    assert (∀ l l', mapM (rule_step db rule) l = Ok l' →
                    Forall (λ a, Approval.status a = "pending") l') as Hrest.
    { intros l l' Hl'. apply mapM_Ok in Hl'.
      induction Hl' as [|a b l l' Hab _ IH]; constructor; [|done].
      unfold rule_step in Hab.
      destruct (users db !! ApprovalRule.user a); by simplify_eq. }
    destruct (mapM (rule_step db rule) (ApprovalRule.approvers rule))
      as [l2|] eqn:Hl2; simpl; [|done].
    intros H. simplify_eq. split; [apply sort_by_sequence_sorted|].
    apply pending_chain_sorted, Forall_app. split; [by apply Hfirst|].
    by eapply Hrest.
Qed.
End RuleSelection.

(** ** Claims about [determineApprovers] *)

Section DetermineApprovers.
Import ApprovalService Scenario.

(** C4, as amended. [determineApprovers] takes a rule as a candidate
    exactly when the rule is one of the expense's company, is active and
    the converted amount lies in the inclusive range
    [minAmount, maxAmount]; the rule's categories and departments are
    not consulted. *)
Theorem rule_matches_on_amount_only (db : DB) (expense : Expense.t)
    (rule : ApprovalRule.t) :
  (rule ∈ find_rules db expense ↔
     rule ∈ rules db
     ∧ ApprovalRule.company rule = Expense.company expense
     ∧ ApprovalRule.isActive rule = true
     ∧ (ApprovalRule.minAmount (ApprovalRule.conditions rule)
          <= Expense.value (Expense.convertedAmount expense))%Q
     ∧ (Expense.value (Expense.convertedAmount expense)
          <= ApprovalRule.maxAmount (ApprovalRule.conditions rule))%Q)
  ∧ ∀ categories departments,
      rule_query expense
        (ApprovalRule.set_filters categories departments rule)
      = rule_query expense rule.
Proof.
  split; [|done]. by rewrite find_rules_elem, rule_query_iff.
Qed.

Lemma rule_matches_on_amount_only_witness :
  ruleA ∈ find_rules (company [ruleA; ruleB]) (draft "emp").
Proof.
  apply (proj1 (rule_matches_on_amount_only
                  (company [ruleA; ruleB]) (draft "emp") ruleA)).
  split; [by left|].
  repeat split; try reflexivity; by vm_compute.
Defined.

(** C4, counterexample. A food expense of 500 and a rule for travel
    expenses between 0 and 1000: the specification's matching excludes
    the rule, the code selects it and builds the chain from it. *)
Lemma rule_categories_not_consulted :
  ruleTravel ∈ find_rules (company [ruleTravel]) (draft "emp")
  ∧ ¬ Spec.rule_matches (company [ruleTravel]) (draft "emp") ruleTravel
  ∧ determineApprovers (company [ruleTravel]) (draft "emp")
    = Ok [Approval.pending "M1" 0].
Proof.
  split; [by left|]. split; [|reflexivity].
  intros (_ & _ & [Hnil|Hin] & _); [done|].
  simpl in Hin. by apply list_elem_of_singleton in Hin.
Qed.

(** C5, as amended. Among the rules that the query accepts (company,
    active, amount range), the one with the highest priority alone
    decides the chain: the other rules may be dropped from the store, and
    when the employee and the approvers of that rule are users, the chain
    is the manager step that the rule asks for followed by the approvers
    that this rule configures, sorted by sequence. When the query accepts
    no rule, the chain is the employee's manager as sole approver at
    sequence 1 if a manager exists, and the empty chain otherwise. *)
Theorem highest_priority_rule_or_manager (db : DB) (expense : Expense.t) :
  ((∃ r, r ∈ rules db ∧ rule_query expense r = true) →
   ∃ top, top ∈ rules db ∧ rule_query expense top = true
     ∧ (∀ r, r ∈ rules db → rule_query expense r = true →
             ApprovalRule.priority r ≤ ApprovalRule.priority top)
     ∧ determineApprovers db expense
       = determineApprovers (mkDB (users db) [top] (expenses db)) expense
     ∧ (∀ employee,
          users db !! Expense.employee expense = Some employee →
          (∀ a, a ∈ ApprovalRule.approvers top →
                is_Some (users db !! ApprovalRule.user a)) →
          determineApprovers db expense
          = Ok (stable_sort by_sequence
                  ((match ApprovalRule.requireManagerApproval
                            (ApprovalRule.rules top),
                          User.manager employee with
                    | true, Some m => [Approval.pending m 0]
                    | _, _ => []
                    end)
                   ++ ((λ a, Approval.pending (ApprovalRule.user a)
                                              (shifted top a))
                       <$> ApprovalRule.approvers top)))))
  ∧ ((∀ r, r ∈ rules db → rule_query expense r = false) →
     ∀ employee, users db !! Expense.employee expense = Some employee →
       determineApprovers db expense
       = Ok match User.manager employee with
            | Some m => [Approval.pending m 1]
            | None => []
            end).
Proof.
  split.
  - intros (r & Hr & Hq).
    destruct (find_rules db expense) as [|top rest] eqn:Hfind.
    { rewrite find_rules_none in Hfind. rewrite (Hfind r Hr) in Hq. done. }
    assert (top ∈ find_rules db expense) as Htop by (rewrite Hfind; left).
    apply find_rules_elem in Htop as [Htop Hqtop].
    exists top. split_and!; [done|done| | |].
    + intros r' Hr' Hq'. eapply find_rules_head; [done|].
      by apply find_rules_elem.
    + unfold determineApprovers. rewrite Hfind.
      unfold find_rules at 1. simpl. rewrite filter_cons, filter_nil.
      destruct (decide (rule_query expense top = true)); done.
    + intros employee Hemp Hall. by eapply determineApprovers_rule.
  - intros Hnone employee Hemp. apply find_rules_none in Hnone.
    unfold determineApprovers, employee_manager. rewrite Hnone, Hemp.
    simpl. by destruct (User.manager employee).
Qed.

(** The scenario of the specification: rule A (priority 1: M1, M2) and
    rule B (priority 5: M1, M2, M3) both accept the expense, and the chain
    is that of rule B. *)
Lemma highest_priority_rule_or_manager_witness :
  determineApprovers (company [ruleA; ruleB]) (draft "emp")
  = Ok [Approval.pending "M1" 0; Approval.pending "M2" 1;
        Approval.pending "M3" 2]
  ∧ determineApprovers (company []) (draft "solo") = Ok [].
Proof.
  split.
  - destruct (proj1 (highest_priority_rule_or_manager
                       (company [ruleA; ruleB]) (draft "emp")))
      as (top & Htop & _ & Hmax & _ & Hchain).
    { exists ruleA. split; [by left|reflexivity]. }
    assert (top = ruleB) as ->.
    { apply elem_of_cons in Htop as [-> | Htop].
      - specialize (Hmax ruleB). simpl in Hmax.
        assert (5 ≤ 1); [|lia]. apply Hmax; [by right; left|reflexivity].
      - by apply list_elem_of_singleton in Htop. }
    rewrite (Hchain (person "employee" (Some "mgr")) eq_refl); [reflexivity|].
    intros a Ha. simpl in Ha.
    repeat (apply elem_of_cons in Ha as [-> | Ha]; [by eexists|]).
    by apply elem_of_nil in Ha.
  - apply (proj2 (highest_priority_rule_or_manager
                    (company []) (draft "solo"))
             (λ r Hr, False_ind _ (proj1 (elem_of_nil r) Hr))
             (person "employee" None)).
    reflexivity.
Defined.

(** C5, counterexample. With no rule at all, the manager of the employee
    is put at sequence 1, not 0. *)
Lemma default_manager_sequence_is_one :
  determineApprovers (company []) (draft "emp")
  = Ok [Approval.pending "mgr" 1]
  ∧ determineApprovers (company []) (draft "emp")
    ≠ Ok [Approval.pending "mgr" 0].
Proof. split; [reflexivity|discriminate]. Qed.

(** C6, as amended. Once the query has put [rule] first, and the
    sequences that the rule configures are safe integers (below 2^53 in
    absolute value, where adding 1 is exact), [determineApprovers] returns
    the employee's manager at sequence 0 when the rule requires manager
    approval and the employee has a manager, together with the rule's
    configured approvers, each sequence shifted by +1 exactly when the
    rule requires manager approval (whether or not a manager was found);
    the chain is sorted ascending by sequence, steps of equal sequence
    keep that order, and every step is pending. *)
Theorem chain_of_rule (db : DB) (expense : Expense.t)
    (rule : ApprovalRule.t) (rest : list ApprovalRule.t) (employee : User.t) :
  find_rules db expense = rule :: rest →
  users db !! Expense.employee expense = Some employee →
  (∀ a, a ∈ ApprovalRule.approvers rule →
        is_Some (users db !! ApprovalRule.user a)) →
  (∀ a, a ∈ ApprovalRule.approvers rule →
        isSafeInteger (ApprovalRule.sequence a)) →
  let required :=
    ApprovalRule.requireManagerApproval (ApprovalRule.rules rule) in
  let first :=
    match required, User.manager employee with
    | true, Some m => [Approval.pending m 0]
    | _, _ => []
    end in
  let configured :=
    (λ a, Approval.pending (ApprovalRule.user a)
            (ApprovalRule.sequence a + (if required then 1 else 0)))
    <$> ApprovalRule.approvers rule in
  ∃ chain,
    determineApprovers db expense = Ok chain
    ∧ chain ≡ₚ first ++ configured
    ∧ StronglySorted (λ a b, Approval.sequence a ≤ Approval.sequence b) chain
    ∧ (∀ k, filter (λ a, Approval.sequence a = k) chain
            = filter (λ a, Approval.sequence a = k) (first ++ configured))
    ∧ Forall (λ a, Approval.status a = "pending") chain.
Proof.
  intros Hfind Hemp Hall Hsafe required first configured.
  assert (configured
          = (λ a, Approval.pending (ApprovalRule.user a) (shifted rule a))
            <$> ApprovalRule.approvers rule) as Hconfigured.
  { subst configured required. apply list_fmap_ext.
    intros i a Ha. rewrite shifted_safe; [done|].
    eapply Hsafe, list_elem_of_lookup_2, Ha. }
  eexists. split; [by eapply determineApprovers_rule|].
  fold required first. rewrite <- Hconfigured.
  split; [apply stable_sort_perm|].
  split; [apply sort_by_sequence_sorted|].
  split.
  - intros k. apply stable_sort_stable.
    intros x y Hx Hy. unfold by_sequence. lia.
  - apply pending_chain_sorted, Forall_app. split.
    + subst first. destruct required, (User.manager employee);
        repeat constructor.
    + subst configured. apply Forall_fmap, Forall_true. done.
Qed.

Lemma chain_of_rule_witness :
  ∃ chain,
    determineApprovers (company [ruleManager]) (draft "emp") = Ok chain
    ∧ chain ≡ₚ [Approval.pending "mgr" 0] ++ [Approval.pending "M1" 1]
    ∧ StronglySorted (λ a b, Approval.sequence a ≤ Approval.sequence b) chain
    ∧ (∀ k, filter (λ a, Approval.sequence a = k) chain
            = filter (λ a, Approval.sequence a = k)
                ([Approval.pending "mgr" 0] ++ [Approval.pending "M1" 1]))
    ∧ Forall (λ a, Approval.status a = "pending") chain.
Proof.
  apply (chain_of_rule (company [ruleManager]) (draft "emp") ruleManager []
           (person "employee" (Some "mgr")));
    [reflexivity|reflexivity| |].
  - intros a Ha. apply list_elem_of_singleton in Ha as ->. by eexists.
  - intros a Ha. apply list_elem_of_singleton in Ha as ->. by vm_compute.
Defined.

(** C6, counterexample. The rule requires manager approval and the
    employee has no manager: nothing is prepended, yet the configured
    sequence 0 of M1 is shifted to 1. *)
Lemma shift_without_manager :
  staff !! "solo" = Some (person "employee" None)
  ∧ determineApprovers (company [ruleManager]) (draft "solo")
    = Ok [Approval.pending "M1" 1]
  ∧ Spec.chain None ruleManager = [Approval.pending "M1" 0]
  ∧ determineApprovers (company [ruleManager]) (draft "solo")
    ≠ Ok (Spec.chain None ruleManager).
Proof. split_and!; [reflexivity..|discriminate]. Qed.

End DetermineApprovers.

(** ** Facts about [processApproval] *)

Section ProcessApproval.
Import ApprovalService.

Lemma find_from_None {A} (p : A → nat → bool) (l : list A) (k : nat) :
  find_from p l k = None ↔
    ∀ j x, l !! j = Some x → p x (k + j)%nat = false.
Proof.
  revert k. induction l as [|y l IH]; intros k; simpl.
  - split; [by intros _ j x|done].
  - destruct (p y k) eqn:Hy.
    + split; [done|]. intros H. specialize (H 0%nat y eq_refl).
      rewrite Nat.add_0_r in H. congruence.
    + rewrite IH. split.
      * intros H [|j] x Hx; simplify_eq/=.
        -- by rewrite Nat.add_0_r.
        -- rewrite <- Nat.add_succ_comm. by apply H.
      * intros H j x Hx. rewrite Nat.add_succ_comm. by apply H.
Qed.

Lemma find_from_first {A} (p : A → nat → bool) (l : list A) (k j : nat)
    (x : A) :
  l !! j = Some x → p x (k + j)%nat = true →
  (∀ j' y, (j' < j)%nat → l !! j' = Some y → p y (k + j')%nat = false) →
  find_from p l k = Some x.
Proof.
  revert k j. induction l as [|y l IH]; intros k j Hj Hp Hbefore; [done|].
  destruct j as [|j]; simplify_eq/=.
  - rewrite Nat.add_0_r in Hp. by rewrite Hp.
  - rewrite <- (Nat.add_0_r k) at 1.
    rewrite (Hbefore 0%nat y) by (done || lia).
    apply (IH (S k) j); [done|by rewrite Nat.add_succ_comm|].
    intros j' z Hj' Hz. rewrite Nat.add_succ_comm.
    apply Hbefore; [lia|done].
Qed.

Lemma findIndex_pending_Some (db : DB) (approverId : ObjectId)
    (l : list Approval.t) (k i : nat) :
  findIndex_pending db approverId l k = Ok (Some i) →
  ∃ j a, i = (k + j)%nat ∧ l !! j = Some a
    ∧ Approval.approver a = approverId ∧ Approval.status a = "pending".
Proof.
  revert k. induction l as [|b l IH]; intros k; simpl; [done|].
  destruct (users db !! Approval.approver b); [|done].
  destruct (String.eqb (Approval.approver b) approverId
            && String.eqb (Approval.status b) "pending") eqn:E.
  - intros [= <-]. exists 0%nat, b.
    apply andb_true_iff in E as [E1 E2].
    apply String.eqb_eq in E1, E2. split; [lia|done].
  - intros H. apply IH in H as (j & a & -> & ? & ? & ?).
    exists (S j), a. split; [lia|done].
Qed.

(** An approver without a pending step gets no index: the search ends
    with [-1], or earlier on a dangling approver reference. *)
Lemma findIndex_pending_nothing (db : DB) (approverId : ObjectId)
    (l : list Approval.t) (k : nat) :
  (∀ a, a ∈ l → Approval.approver a = approverId →
        Approval.status a ≠ "pending") →
  ∀ i, findIndex_pending db approverId l k ≠ Ok (Some i).
Proof.
  intros Hnone i H.
  apply findIndex_pending_Some in H as (j & a & _ & Hj & Ha & Hs).
  eapply Hnone; [|done..]. by eapply list_elem_of_lookup_2.
Qed.

(** The first pending step is found behind any number of decided ones. *)
Lemma findIndex_pending_next (db : DB) (decided : list Approval.t)
    (a : Approval.t) (todo : list Approval.t) (k : nat) :
  Forall (λ b, Approval.status b ≠ "pending") decided →
  (∀ b, b ∈ decided → is_Some (users db !! Approval.approver b)) →
  is_Some (users db !! Approval.approver a) →
  Approval.status a = "pending" →
  findIndex_pending db (Approval.approver a) (decided ++ a :: todo) k
  = Ok (Some (k + length decided)%nat).
Proof.
  intros Hdecided Husers [u Hu] Ha. revert k.
  induction Hdecided as [|b decided Hb _ IH]; intros k; simpl.
  - rewrite Hu, String.eqb_refl, Ha. simpl. by rewrite Nat.add_0_r.
  - destruct (Husers b) as [v ->]; [left|].
    replace (String.eqb (Approval.status b) "pending") with false
      by (symmetry; by apply String.eqb_neq).
    rewrite andb_false_r, IH, Nat.add_succ_comm; [done|].
    intros c Hc. apply Husers. by right.
Qed.

Lemma applyDecision_approvals (e : Expense.t) (i : nat)
    (approverId : ObjectId) (decision : string) (comments : option string)
    (now : Date) :
  Expense.approvals (applyDecision e i approverId decision comments now)
  = alter (Approval.decided decision comments now) i (Expense.approvals e).
Proof.
  unfold applyDecision.
  destruct (String.eqb decision "rejected"); [done|].
  destruct (String.eqb decision "approved"); [|done].
  by destruct (nextPendingApproval _ _).
Qed.

Lemma applyDecision_rejected (e : Expense.t) (i : nat)
    (approverId : ObjectId) (comments : option string) (now : Date) :
  Expense.status (applyDecision e i approverId "rejected" comments now)
  = "rejected".
Proof. done. Qed.

(** The validators other than the two enums read fields that no
    decision writes. *)
Lemma validate_decision (e e' : Expense.t) :
  Expense.amount e' = Expense.amount e →
  Expense.convertedAmount e' = Expense.convertedAmount e →
  Expense.category e' = Expense.category e →
  Expense.description e' = Expense.description e →
  Expense.expenseDate e' = Expense.expenseDate e →
  Expense.validate e = true →
  Expense.in_enum Expense.status_enum (Expense.status e') = true →
  forallb (λ a, Expense.in_enum Expense.approval_status_enum
                  (Approval.status a)) (Expense.approvals e') = true →
  Expense.validate e' = true.
Proof.
  unfold Expense.validate. intros -> -> -> -> ->.
  rewrite !andb_true_iff. tauto.
Qed.

Lemma validate_approvals (e : Expense.t) :
  Expense.validate e = true →
  Forall (λ a, Expense.in_enum Expense.approval_status_enum
                 (Approval.status a) = true) (Expense.approvals e).
Proof.
  unfold Expense.validate. rewrite !andb_true_iff.
  intros (_ & H). rewrite forallb_forall in H.
  apply Forall_forall. intros a Ha. by apply H, list_elem_of_In.
Qed.

Lemma validate_status (e : Expense.t) :
  Expense.validate e = true →
  Expense.in_enum Expense.status_enum (Expense.status e) = true.
Proof. unfold Expense.validate. rewrite !andb_true_iff. tauto. Qed.

Lemma applyDecision_fields (e : Expense.t) (i : nat)
    (approverId : ObjectId) (decision : string) (comments : option string)
    (now : Date) :
  let e' := applyDecision e i approverId decision comments now in
  Expense.employee e' = Expense.employee e
  ∧ Expense.company e' = Expense.company e
  ∧ Expense.amount e' = Expense.amount e
  ∧ Expense.convertedAmount e' = Expense.convertedAmount e
  ∧ Expense.category e' = Expense.category e
  ∧ Expense.description e' = Expense.description e
  ∧ Expense.expenseDate e' = Expense.expenseDate e.
Proof.
  unfold applyDecision.
  destruct (String.eqb decision "rejected"); [done|].
  destruct (String.eqb decision "approved"); [|done].
  by destruct (nextPendingApproval _ _).
Qed.

(** A successful call decided one step that was pending and belonged to
    the caller. *)
Lemma processApproval_Ok (db db' : DB) (now : Date) (id approverId : ObjectId)
    (decision : string) (comments : option string) (e' : Expense.t) :
  processApproval db now id approverId decision comments = Ok (db', e') →
  ∃ e i a,
    expenses db !! id = Some e
    ∧ Expense.approvals e !! i = Some a
    ∧ Approval.approver a = approverId
    ∧ Approval.status a = "pending"
    ∧ e' = applyDecision e i approverId decision comments now
    ∧ Expense.validate e' = true
    ∧ db' = mkDB (users db) (rules db) (<[id := e']> (expenses db)).
Proof.
  unfold processApproval. destruct (expenses db !! id) as [e|]; [|done].
  intros H. apply bind_Ok in H as ([i|] & Hfind & H); [|done].
  apply bind_Ok in H as (db1 & Hsave & [= <- <-]).
  apply findIndex_pending_Some in Hfind as (j & a & -> & Hj & Ha & Hs).
  unfold save in Hsave.
  destruct (Expense.validate _) eqn:Hvalid; [|done].
  exists e, j, a. by simplify_eq.
Qed.
Lemma find_from_skip {A} (p : A → nat → bool) (l1 l2 : list A) (k : nat) :
  (∀ j x, l1 !! j = Some x → p x (k + j)%nat = false) →
  find_from p (l1 ++ l2) k = find_from p l2 (k + length l1)%nat.
Proof.
  revert k. induction l1 as [|y l1 IH]; intros k Hskip; simpl.
  - by rewrite Nat.add_0_r.
  - rewrite <- (Nat.add_0_r k) at 1. rewrite (Hskip 0%nat y eq_refl).
    rewrite IH, Nat.add_succ_comm; [done|].
    intros j x Hx. rewrite Nat.add_succ_comm. by apply Hskip.
Qed.

(** Past the step just decided, the search stops at the first step if
    all the remaining ones are pending. *)
Lemma nextPendingApproval_todo (decided : list Approval.t) (a : Approval.t)
    (todo : list Approval.t) :
  Forall (λ b, Approval.status b = "pending") todo →
  nextPendingApproval (decided ++ a :: todo) (length decided) = head todo.
Proof.
  intros Htodo. unfold nextPendingApproval.
  rewrite (find_from_skip _ decided (a :: todo)).
  - simpl. rewrite Nat.ltb_irrefl. simpl.
    destruct Htodo as [|b todo Hb _]; [done|]. simpl.
    rewrite Hb. simpl.
    by replace (length decided <? S (length decided))%nat with true
      by (symmetry; apply Nat.ltb_lt; lia).
  - intros j x Hx. apply lookup_lt_Some in Hx. simpl.
    by replace (length decided <? j)%nat with false
      by (symmetry; apply Nat.ltb_ge; lia).
Qed.

(** One approval by the approver of the first pending step, all steps
    behind it being pending. *)
Lemma processApproval_next (db : DB) (now : Date) (id : ObjectId)
    (e : Expense.t) (decided : list Approval.t) (a : Approval.t)
    (todo : list Approval.t) (comments : option string) :
  expenses db !! id = Some e →
  Expense.approvals e = decided ++ a :: todo →
  Forall (λ b, Approval.status b ≠ "pending") decided →
  Approval.status a = "pending" →
  Forall (λ b, Approval.status b = "pending") todo →
  (∀ b, b ∈ Expense.approvals e → is_Some (users db !! Approval.approver b)) →
  Expense.validate e = true →
  ∃ e',
    processApproval db now id (Approval.approver a) "approved" comments
    = Ok (mkDB (users db) (rules db) (<[id := e']> (expenses db)), e')
    ∧ Expense.approvals e'
      = (decided ++ [Approval.decided "approved" comments now a]) ++ todo
    ∧ Expense.status e'
      = match todo with [] => "approved" | _ :: _ => Expense.status e end
    ∧ Expense.validate e' = true.
Proof.
  intros He Happ Hdecided Ha Htodo Husers Hvalid.
  set (e' := applyDecision e (length decided) (Approval.approver a)
               "approved" comments now).
  assert (Expense.approvals e'
          = (decided ++ [Approval.decided "approved" comments now a]) ++ todo)
    as Happ'.
  { subst e'. rewrite applyDecision_approvals, Happ.
    rewrite alter_app_r_alt by lia. rewrite Nat.sub_diag.
    by rewrite <- app_assoc. }
  assert (Expense.status e'
          = match todo with [] => "approved" | _ :: _ => Expense.status e end)
    as Hstatus.
  { subst e'. unfold applyDecision. simpl.
    rewrite Happ, alter_app_r_alt by lia. rewrite Nat.sub_diag. simpl.
    rewrite nextPendingApproval_todo by done. by destruct todo. }
  assert (Expense.validate e' = true) as Hvalid'.
  { destruct (applyDecision_fields e (length decided) (Approval.approver a)
                "approved" comments now) as (_ & _ & ? & ? & ? & ? & ?).
    apply (validate_decision e); try done.
    - rewrite Hstatus. destruct todo; [done|]. by apply validate_status.
    - rewrite Happ'. apply validate_approvals in Hvalid.
      rewrite Happ in Hvalid. apply forallb_forall. intros b Hb.
      apply list_elem_of_In in Hb. rewrite Forall_forall in Hvalid.
      rewrite !elem_of_app, list_elem_of_singleton in Hb.
      destruct Hb as [[Hb| ->]|Hb]; [|done|].
      + apply Hvalid. rewrite elem_of_app. by left.
      + apply Hvalid. rewrite elem_of_app. right. by right. }
  exists e'. split; [|done].
  unfold processApproval. rewrite He, Happ.
  rewrite findIndex_pending_next; try done.
  - simpl. fold e'. unfold save. by rewrite Hvalid'.
  - intros b Hb. apply Husers. rewrite Happ, elem_of_app. by left.
  - apply Husers. rewrite Happ, elem_of_app. right. by left.
Qed.
End ProcessApproval.


(** ** Decisions taken in chain order *)

Section InOrder.
Import ApprovalService ExpenseController.

Lemma approveExpense_Ok (db db' : DB) (now : Date) (id : ObjectId)
    (approver : ReqUser) (decision : string) (comments : option string)
    (e' : Expense.t) :
  valid_decision decision = true →
  processApproval db now id (user_id approver) decision comments
  = Ok (db', e') →
  approveExpense db now id approver decision comments
  = (db', mkResponse 200 ("Expense " +:+ decision +:+ " successfully")
                     (Some e')).
Proof. intros Hvalid H. unfold approveExpense. by rewrite Hvalid, H. Qed.

Lemma pending_statuses (l : list Approval.t) :
  Forall (λ b, Approval.status b = "pending") l →
  Approval.status <$> l = replicate (length l) "pending".
Proof.
  induction 1 as [|b l Hb _ IHl]; [done|].
  rewrite fmap_cons, Hb, IHl. done.
Qed.

(** The approvers of the first [k] pending steps approve, in chain
    order: the [k] steps are approved, and the expense is approved at
    the last step of the chain, not before. *)
Lemma decisions_in_order (id : ObjectId) (todo : list Approval.t) :
  ∀ (k : nat) (decided : list Approval.t) (db : DB) (now : Date)
    (e : Expense.t),
  expenses db !! id = Some e →
  Expense.approvals e = decided ++ todo →
  Forall (λ b, Approval.status b ≠ "pending") decided →
  Forall (λ b, Approval.status b = "pending") todo →
  (∀ b, b ∈ Expense.approvals e → is_Some (users db !! Approval.approver b)) →
  Expense.validate e = true →
  (k ≤ length todo)%nat →
  ∃ e_k,
    expenses (decisions db now id
                ((λ a, (Approval.approver a, "approved")) <$> take k todo))
      !! id = Some e_k
    ∧ Approval.status <$> Expense.approvals e_k
      = (Approval.status <$> decided) ++ replicate k "approved"
        ++ replicate (length todo - k) "pending"
    ∧ Expense.status e_k
      = if (0 <? k)%nat && (k =? length todo)%nat
        then "approved" else Expense.status e.
Proof.
  induction todo as [|a todo IH];
    intros k decided db now e He Happ Hdecided Htodo Husers Hvalid Hk.
  - assert (k = 0%nat) as -> by (simpl in Hk; lia). simpl.
    exists e. by rewrite Happ, !app_nil_r.
  - destruct k as [|k].
    { exists e. rewrite Happ, fmap_app, (pending_statuses _ Htodo).
      by rewrite Nat.sub_0_r. }
    apply Forall_cons in Htodo as [Ha Htodo].
    destruct (processApproval_next db now id e decided a todo None)
      as (e' & Hcall & Happ' & Hstatus & Hvalid'); try done.
    cbn [take fmap list_fmap decisions].
    rewrite (approveExpense_Ok db _ now id
               (mkReqUser (Approval.approver a) "" "") "approved" None e'
               eq_refl Hcall).
    simpl fst.
    set (db' := mkDB (users db) (rules db) (<[id:=e']> (expenses db))).
    destruct (IH k (decided ++ [Approval.decided "approved" None now a])
                db' (now + 1) e') as (e_k & Hrun & Hsteps & Hfinal).
    + apply lookup_insert_eq.
    + done.
    + apply Forall_app. split; [done|]. by repeat constructor.
    + done.
    + intros b Hb.
      rewrite Happ', !elem_of_app, list_elem_of_singleton in Hb.
      assert (∀ c, c ∈ decided ++ a :: todo →
                   is_Some (users db !! Approval.approver c)) as Hall
        by (intros c Hc; apply Husers; by rewrite Happ).
      destruct Hb as [[Hb| ->]|Hb].
      * apply Hall, elem_of_app. by left.
      * apply (Hall a), elem_of_app. right. by left.
      * apply Hall, elem_of_app. right. by right.
    + done.
    + simpl in Hk. lia.
    + exists e_k. split; [done|]. split.
      * rewrite Hsteps, fmap_app. simpl. by rewrite <- app_assoc.
      * rewrite Hfinal, Hstatus. simpl length.
        destruct todo as [|b todo]; simpl in *.
        -- assert (k = 0%nat) as -> by lia. done.
        -- destruct (Nat.ltb_spec 0 k), (Nat.eqb_spec k (S (length todo)));
             simpl; done || lia.
Qed.
End InOrder.

(** ** Claims about [processApproval] *)

Section Decisions.
Import ApprovalService ExpenseController Scenario.

(** C1, the failing input. Rule A is sequential with the chain M1, M2.
    M2, the last approver, approves first: the request succeeds and the
    expense is approved after one approval, with the step of M1 still
    pending. *)
Lemma last_approver_alone_approves :
  expenses (submit [ruleA] "emp") !! "x1"
  = Some (review "emp" [Approval.pending "M1" 0; Approval.pending "M2" 1])
  ∧ let out := approveExpense (submit [ruleA] "emp") 20 "x1" (req "M2")
                 "approved" None in
    code out.2 = 200%nat
    ∧ (λ e, (Expense.status e, Approval.status <$> Expense.approvals e,
             Expense.finalApprover e)) <$> expenses out.1 !! "x1"
      = Some ("approved", ["pending"; "approved"], Some "M2").
Proof. by vm_compute. Qed.

(** C2, as amended. Whatever the threshold T of the percentage rule
    that routed the expense, when the approvers of a chain of N pending
    steps approve in chain order, with no rejection, the expense is
    approved exactly when all N approvals have been recorded. *)
Theorem percentage_rule_needs_every_step (db : DB) (id : ObjectId)
    (e : Expense.t) (rule : ApprovalRule.t) (rest : list ApprovalRule.t)
    (T : Z) (k : nat) (now : Date) :
  expenses db !! id = Some e →
  find_rules db e = rule :: rest →
  ApprovalRule.type (ApprovalRule.rules rule) = "percentage" →
  ApprovalRule.percentageRequired (ApprovalRule.rules rule) = Some T →
  Expense.validate e = true →
  Expense.status e = "in_review" →
  Expense.approvals e ≠ [] →
  Forall (λ b, Approval.status b = "pending") (Expense.approvals e) →
  (∀ b, b ∈ Expense.approvals e → is_Some (users db !! Approval.approver b)) →
  (k ≤ length (Expense.approvals e))%nat →
  ∃ e_k,
    expenses (decisions db now id
                ((λ a, (Approval.approver a, "approved"))
                 <$> take k (Expense.approvals e))) !! id = Some e_k
    ∧ Approval.status <$> Expense.approvals e_k
      = replicate k "approved"
        ++ replicate (length (Expense.approvals e) - k) "pending"
    ∧ (Expense.status e_k = "approved" ↔ k = length (Expense.approvals e)).
Proof.
  intros He _ _ _ Hvalid Hstatus Hne Hpending Husers Hk.
  destruct (decisions_in_order id (Expense.approvals e) k [] db now e)
    as (e_k & Hrun & Hsteps & Hfinal); try done.
  exists e_k. split; [done|]. split; [done|].
  rewrite Hfinal, Hstatus.
  destruct (Expense.approvals e) as [|a l]; [done|]. simpl length in *.
  destruct (Nat.ltb_spec 0 k), (Nat.eqb_spec k (S (length l))); simpl;
    split; done || lia.
Qed.

Lemma percentage_rule_needs_every_step_witness :
  ∃ e_k,
    expenses (decisions (submit [ruleA; ruleB] "emp") 20 "x1"
                [("M1", "approved"); ("M2", "approved"); ("M3", "approved")])
      !! "x1" = Some e_k
    ∧ Approval.status <$> Expense.approvals e_k
      = ["approved"; "approved"; "approved"]
    ∧ (Expense.status e_k = "approved" ↔ 3%nat = 3%nat).
Proof.
  apply (percentage_rule_needs_every_step (submit [ruleA; ruleB] "emp") "x1"
           (review "emp" [Approval.pending "M1" 0; Approval.pending "M2" 1;
                          Approval.pending "M3" 2])
           ruleB [ruleA] 50 3 20); try (by vm_compute).
  - repeat constructor.
  - intros b Hb.
    repeat (apply elem_of_cons in Hb as [->|Hb]; [by vm_compute; eexists|]).
    by apply elem_of_nil in Hb.
Defined.

(** C2, counterexample. Rule B asks for 50% of three approvers, that is
    ceil(1.5) = 2 approvals. After M1 and M2 have approved, and nobody
    has rejected, the expense is still in review. *)
Lemma two_of_three_not_enough :
  Spec.required_approvals 50 3 = 2
  ∧ find_rules (company [ruleA; ruleB]) (draft "emp") = [ruleB; ruleA]
  ∧ (λ e, (Expense.status e, Approval.status <$> Expense.approvals e))
    <$> expenses (decisions (submit [ruleA; ruleB] "emp") 20 "x1"
                    [("M1", "approved"); ("M2", "approved")]) !! "x1"
    = Some ("in_review", ["approved"; "approved"; "pending"]).
Proof. by vm_compute. Qed.

(** C3, the failing input. M1 rejects, so the expense is rejected; M2
    then approves: the request succeeds and the rejected expense becomes
    approved. *)
Lemma rejected_expense_gets_approved :
  let db := decisions (submit [ruleA] "emp") 20 "x1" [("M1", "rejected")] in
  Expense.status <$> expenses db !! "x1" = Some "rejected"
  ∧ let out := approveExpense db 21 "x1" (req "M2") "approved" None in
    code out.2 = 200%nat
    ∧ (λ e, (Expense.status e, Approval.status <$> Expense.approvals e,
             Expense.rejectedAt e, Expense.approvedAt e))
      <$> expenses out.1 !! "x1"
      = Some ("approved", ["rejected"; "approved"], Some 20, Some 21).
Proof. by vm_compute. Qed.

(** C7, as amended. A decision by an approver who has no pending step
    left on the expense fails and leaves the store as it was. A decision
    that succeeds rewrites exactly one step, which was pending and
    belongs to the caller, from 'pending' to the decision; every other
    step, and so every step that was 'approved', 'rejected' or
    'overridden', stays as it was. *)
Theorem one_pending_step_per_decision (db : DB) (now : Date) (id : ObjectId)
    (approver : ReqUser) (decision : string) (comments : option string)
    (e : Expense.t) :
  expenses db !! id = Some e →
  let out := approveExpense db now id approver decision comments in
  ((∀ a, a ∈ Expense.approvals e →
         Approval.approver a = user_id approver →
         Approval.status a ≠ "pending") →
   (∃ msg, processApproval db now id (user_id approver) decision comments
           = Throw msg)
   ∧ out.1 = db ∧ code out.2 ≠ 200%nat)
  ∧ (code out.2 = 200%nat →
     ∃ i a e',
       Expense.approvals e !! i = Some a
       ∧ Approval.approver a = user_id approver
       ∧ Approval.status a = "pending"
       ∧ (decision = "approved" ∨ decision = "rejected")
       ∧ expenses out.1 = <[id := e']> (expenses db)
       ∧ Expense.approvals e'
         = <[i := Approval.decided decision comments now a]>
             (Expense.approvals e)
       ∧ (∀ j, j ≠ i →
               Expense.approvals e' !! j = Expense.approvals e !! j)
       ∧ (∀ j b, Expense.approvals e !! j = Some b →
                 Approval.status b ≠ "pending" →
                 Expense.approvals e' !! j = Some b)).
Proof.
  intros He out. split.
  - intros Hnone.
    assert (∃ msg, processApproval db now id (user_id approver) decision
                     comments = Throw msg) as [msg Hmsg].
    { unfold processApproval. rewrite He.
      pose proof (findIndex_pending_nothing db (user_id approver)
                    (Expense.approvals e) 0 Hnone) as Hfind.
      destruct (findIndex_pending _ _ _ _) as [[i|]|msg]; simpl;
        [by destruct (Hfind i)|by eexists..]. }
    split; [by eexists|]. subst out. unfold approveExpense.
    rewrite Hmsg. by destruct (valid_decision decision).
  - subst out. unfold approveExpense.
    destruct (valid_decision decision) eqn:Hvalid; simpl; [|done].
    destruct (processApproval _ _ _ _ _ _) as [[db' e']|msg] eqn:Hcall;
      simpl; [|done].
    intros _.
    apply processApproval_Ok
      in Hcall as (e0 & i & a & He0 & Hi & Ha & Hs & -> & _ & ->).
    assert (e0 = e) as -> by congruence.
    assert (Expense.approvals
              (applyDecision e i (user_id approver) decision comments now)
            = <[i := Approval.decided decision comments now a]>
                (Expense.approvals e)) as Happ.
    { rewrite applyDecision_approvals, list_insert_alter.
      apply list_alter_ext; [|done]. intros x Hx. congruence. }
    exists i, a, (applyDecision e i (user_id approver) decision comments now).
    split_and!; try done.
    + unfold valid_decision in Hvalid. apply orb_true_iff in Hvalid.
      by rewrite !String.eqb_eq in Hvalid.
    + intros j Hj. rewrite Happ. by apply list_lookup_insert_ne.
    + intros j b Hb Hsb. rewrite Happ, list_lookup_insert_ne; [done|].
      intros <-. congruence.
Qed.

Lemma one_pending_step_per_decision_witness :
  let db := decisions (submit [ruleA] "emp") 20 "x1" [("M1", "approved")] in
  let out := approveExpense db 21 "x1" (req "M1") "approved" None in
  (∃ msg, processApproval db 21 "x1" "M1" "approved" None = Throw msg)
  ∧ out.1 = db ∧ code out.2 ≠ 200%nat.
Proof.
  intros db out.
  refine (proj1 (one_pending_step_per_decision db 21 "x1" (req "M1")
                   "approved" None
                   (Expense.set_currentApprovalLevel 1
                      (Expense.set_approvals
                         [Approval.decided "approved" None 20
                            (Approval.pending "M1" 0);
                          Approval.pending "M2" 1]
                         (review "emp" []))) _) _).
  - by vm_compute.
  - intros a Ha.
    repeat (apply elem_of_cons in Ha as [->|Ha]; [by vm_compute|]).
    by apply elem_of_nil in Ha.
Defined.

(** C7, counterexample. The rule asks for the manager first and names
    that same manager as its approver, so the chain of the employee's
    expense is mgr at 0, mgr at 1. The manager approves: the first step
    is decided and the expense stays in review. The identical request,
    sent again, is answered 200, decides the second step and approves
    the expense. *)
Lemma repeated_decision_is_accepted :
  let db := submit [ruleOwnManager] "emp" in
  let once := approveExpense db 20 "x1" (req "mgr") "approved" None in
  let twice := approveExpense once.1 21 "x1" (req "mgr") "approved" None in
  members <$> expenses db !! "x1" = Some [("mgr", 0); ("mgr", 1)]
  ∧ code once.2 = 200%nat
  ∧ (λ e, (Expense.status e, Approval.status <$> Expense.approvals e))
      <$> expenses once.1 !! "x1"
    = Some ("in_review", ["approved"; "pending"])
  ∧ code twice.2 = 200%nat
  ∧ (λ e, (Expense.status e, Approval.status <$> Expense.approvals e))
      <$> expenses twice.1 !! "x1"
    = Some ("approved", ["approved"; "approved"])
  ∧ twice.1 ≠ once.1.
Proof.
  intros db once twice. split_and!; [by vm_compute..|].
  intros Hsame.
  assert (Expense.status <$> expenses twice.1 !! "x1"
          = Expense.status <$> expenses once.1 !! "x1") as Hstatus
    by (by rewrite Hsame).
  vm_compute in Hstatus. discriminate.
Qed.

End Decisions.

(** ** Creation *)

Section Creation.
Import ApprovalService ExpenseController Scenario.

Lemma save_Ok (db db' : DB) (id : ObjectId) (doc : Expense.t) :
  save db id doc = Ok db' →
  Expense.validate doc = true
  ∧ db' = mkDB (users db) (rules db) (<[id := doc]> (expenses db)).
Proof.
  unfold save. destruct (Expense.validate doc); [|done].
  by intros [= <-].
Qed.

(** What a 201 response of [createExpense] stands for. *)
Lemma createExpense_created (convertCurrency : Q → string → string → result Q)
    (db db' : DB) (now : Date) (newId : ObjectId) (employee : ReqUser)
    (body : CreateBody) (resp : Response) :
  createExpense convertCurrency db now newId employee body = (db', resp) →
  code resp = 201%nat →
  ∃ draft approvers e,
    determineApprovers db draft = Ok approvers
    ∧ e = match approvers with
          | first :: _ =>
              Expense.set_currentApprovalLevel (Approval.sequence first)
                (Expense.set_status "in_review"
                   (Expense.set_approvals approvers draft))
          | [] =>
              Expense.set_approvedAt (Some now)
                (Expense.set_status "approved"
                   (Expense.set_approvals approvers draft))
          end
    ∧ expenses db !! newId = None
    ∧ save db newId e = Ok db'
    ∧ expense resp = Some e.
Proof.
  unfold createExpense. destruct (_ || _); [by intros [= <- <-]|].
  destruct (parseFloat (amount body)) as [numAmount|];
    [|by intros [= <- <-]].
  destruct (Qle_bool numAmount 0); [by intros [= <- <-]|].
  match goal with
  | |- context [match ?o with Ok _ => _ | Throw _ => _ end] =>
      destruct o as [[db1 e1]|msg] eqn:Houtcome
  end; [|by intros [= <- <-]].
  intros [= <- <-] _.
  apply bind_Ok in Houtcome as (converted & _ & Houtcome).
  apply bind_Ok in Houtcome as (approvers & Hdetermine & Houtcome).
  apply bind_Ok in Houtcome as (db2 & Hsave & [= <- <-]).
  destruct (expenses db !! newId) eqn:Hfresh; [done|].
  eexists _, approvers, _. split_and!; [exact Hdetermine|done|done| |done].
  by destruct approvers.
Qed.



End Creation.

(** ** What [save] lets through *)

Section Stored.
Import ApprovalService ExpenseController AdminController Scenario.

Lemma all_valid_save (db db' : DB) (id : ObjectId) (doc : Expense.t) :
  all_valid db → save db id doc = Ok db' → all_valid db'.
Proof.
  intros Hdb Hsave. apply save_Ok in Hsave as [Hdoc ->].
  intros id' e. simpl. rewrite lookup_insert.
  case_decide; [by intros [= <-]|]. apply Hdb.
Qed.

Lemma all_valid_handle (db : DB) (request : Request) :
  all_valid db → all_valid (handle db request).
Proof.
  intros Hdb. destruct request; simpl.
  - unfold createExpense. destruct (_ || _); [done|].
    destruct (parseFloat (amount body)); [|done].
    destruct (Qle_bool _ _); [done|].
    match goal with
    | |- context [match ?o with Ok _ => _ | Throw _ => _ end] =>
        destruct o as [[db1 e1]|msg] eqn:Houtcome
    end; [|done].
    apply bind_Ok in Houtcome as (? & _ & Houtcome).
    apply bind_Ok in Houtcome as (? & _ & Houtcome).
    apply bind_Ok in Houtcome as (db2 & Hsave & [= <- <-]).
    destruct (expenses db !! newId); [done|]. by eapply all_valid_save.
  - unfold updateExpense. destruct (findOwnPending db id user); [|done].
    match goal with
    | |- context [match ?o with Ok _ => _ | Throw _ => _ end] =>
        destruct o as [[db1 e1]|msg] eqn:Houtcome
    end; [|done].
    apply bind_Ok in Houtcome as (? & _ & Houtcome).
    apply bind_Ok in Houtcome as (db2 & Hsave & [= <- <-]).
    by eapply all_valid_save.
  - unfold deleteExpense. destruct (findOwnPending db id user); [|done].
    intros id' e. simpl. rewrite lookup_delete.
    case_decide; [done|]. apply Hdb.
  - unfold approveExpense. destruct (negb _); [done|].
    destruct (processApproval _ _ _ _ _ _) as [[db' e']|msg] eqn:Hcall;
      [|done].
    apply processApproval_Ok in Hcall as (_ & _ & _ & _ & _ & _ & _ & _ & He' & ->).
    intros id' e. simpl. rewrite lookup_insert.
    case_decide; [by intros [= <-]|]. apply Hdb.
  - unfold overrideApproval. destruct (negb _); [done|].
    destruct (findInCompany db id admin); [|done].
    destruct (save _ _ _) eqn:Hsave; [|done]. by eapply all_valid_save.
  - done.
Qed.

Lemma all_valid_serve (users0 : gmap string User.t)
    (rules0 : list ApprovalRule.t) (history : list Request) :
  all_valid (serve users0 rules0 history).
Proof.
  unfold serve.
  assert (all_valid (mkDB users0 rules0 ∅)) as Hinit by (by intros id e).
  revert Hinit. generalize (mkDB users0 rules0 ∅).
  induction history as [|request history IH]; intros db Hdb; [done|].
  simpl. by apply IH, all_valid_handle.
Qed.

Lemma in_approval_status_enum (s : string) :
  Expense.in_enum Expense.approval_status_enum s = true ↔
    s = "pending" ∨ s = "approved" ∨ s = "rejected".
Proof.
  unfold Expense.in_enum. simpl.
  rewrite !orb_true_iff, !String.eqb_eq. intuition discriminate.
Qed.

(** The in-memory update of the override breaks the enum as soon as one
    step is pending. *)
Lemma applyOverride_invalid (e : Expense.t) (admin : ReqUser)
    (decision : string) (comments : option string) (now : Date)
    (a : Approval.t) :
  a ∈ Expense.approvals e → Approval.status a = "pending" →
  Expense.validate (applyOverride e admin decision comments now) = false.
Proof.
  intros Ha Hs. apply not_true_is_false. intros Hvalid.
  apply validate_approvals in Hvalid. rewrite Forall_forall in Hvalid.
  specialize (Hvalid (override_step now a)).
  unfold override_step in Hvalid at 2. rewrite Hs in Hvalid.
  simpl in Hvalid. discriminate Hvalid.
  unfold applyOverride.
  destruct (String.eqb decision "approved"); simpl;
    by apply list_elem_of_fmap_2.
Qed.

(** The override of an expense that still has a pending step is refused
    by [save] and answered with status 500. *)
Lemma overrideApproval_pending (db : DB) (now : Date) (id : ObjectId)
    (admin : ReqUser) (decision : string) (comments : option string)
    (e : Expense.t) (a : Approval.t) :
  valid_decision decision = true →
  findInCompany db id admin = Some e →
  a ∈ Expense.approvals e → Approval.status a = "pending" →
  overrideApproval db now id admin decision comments
  = (db, mkResponse 500 "Failed to override approval" None).
Proof.
  intros Hvalid Hfind Ha Hs. unfold overrideApproval.
  rewrite Hvalid, Hfind. simpl. unfold save.
  by rewrite (applyOverride_invalid e admin decision comments now a).
Qed.

(** C10. In every store that the requests can produce, the status of
    each approval step of each expense is 'pending', 'approved' or
    'rejected'; and an admin override of an expense that still has a
    pending step, which assigns 'overridden' to it, is answered with
    an error and persists nothing. *)
Theorem stored_step_status_in_enum (users0 : gmap string User.t)
    (rules0 : list ApprovalRule.t) (history : list Request) :
  let db := serve users0 rules0 history in
  (∀ id e a, expenses db !! id = Some e → a ∈ Expense.approvals e →
     Approval.status a = "pending" ∨ Approval.status a = "approved"
     ∨ Approval.status a = "rejected")
  ∧ (∀ now id admin decision comments e,
       findInCompany db id admin = Some e →
       (∃ a, a ∈ Expense.approvals e ∧ Approval.status a = "pending") →
       let out := overrideApproval db now id admin decision comments in
       out.1 = db ∧ code out.2 ≠ 200%nat).
Proof.
  intros db. split.
  - intros id e a He Ha. apply in_approval_status_enum.
    pose proof (all_valid_serve users0 rules0 history id e He) as Hvalid.
    apply validate_approvals in Hvalid. rewrite Forall_forall in Hvalid.
    by apply Hvalid.
  - intros now id admin decision comments e He (a & Ha & Hs) out.
    subst out. destruct (valid_decision decision) eqn:Hvalid.
    + by rewrite (overrideApproval_pending db now id admin decision
                    comments e a).
    + unfold overrideApproval. by rewrite Hvalid.
Qed.

Lemma stored_step_status_in_enum_witness :
  let db := serve staff [ruleA]
              [CreateExpense sameCurrency 10 "x1" (req "emp") lunch] in
  let out := overrideApproval db 30 "x1" (req "root") "approved" None in
  out.1 = db ∧ code out.2 ≠ 200%nat.
Proof.
  intros db.
  apply (proj2 (stored_step_status_in_enum staff [ruleA]
                  [CreateExpense sameCurrency 10 "x1" (req "emp") lunch])
           30 "x1" (req "root") "approved" None
           (review "emp" [Approval.pending "M1" 0; Approval.pending "M2" 1])).
  - by vm_compute.
  - exists (Approval.pending "M1" 0). split; [by left|done].
Defined.

(** What the override writes in memory: the status is the decision, the
    administrator is the final approver, the date of the decision and, on
    a rejection, its reason are stamped; pending steps become
    'overridden' with the comment 'Overridden by admin', the other steps
    are left alone. *)
Lemma applyOverride_effect (e : Expense.t) (admin : ReqUser)
    (decision : string) (comments : option string) (now : Date) :
  let e' := applyOverride e admin decision comments now in
  Expense.status e' = decision
  ∧ Expense.finalApprover e' = Some (user_id admin)
  ∧ (decision = "approved" → Expense.approvedAt e' = Some now)
  ∧ (decision ≠ "approved" →
     Expense.rejectedAt e' = Some now ∧ Expense.rejectionReason e' = comments)
  ∧ length (Expense.approvals e') = length (Expense.approvals e)
  ∧ ∀ i a, Expense.approvals e !! i = Some a →
      Expense.approvals e' !! i
      = Some (if String.eqb (Approval.status a) "pending"
              then Approval.mk (Approval.approver a) "overridden"
                     (Some "Overridden by admin") (Some now)
                     (Approval.sequence a)
              else a).
Proof.
  unfold applyOverride.
  destruct (String.eqb_spec decision "approved") as [->|Hne]; simpl;
    (split_and!; try done; [by rewrite length_fmap|]);
    intros i a Hi; by rewrite list_lookup_fmap, Hi.
Qed.

(** With no pending step left, the override goes through and the stored
    expense carries the decision. *)
Lemma overrideApproval_decided (db : DB) (now : Date) (id : ObjectId)
    (admin : ReqUser) (decision : string) (comments : option string)
    (e : Expense.t) :
  valid_decision decision = true →
  findInCompany db id admin = Some e →
  Expense.validate e = true →
  Forall (λ a, Approval.status a ≠ "pending") (Expense.approvals e) →
  ∃ e',
    overrideApproval db now id admin decision comments
    = (mkDB (users db) (rules db) (<[id := e']> (expenses db)),
       mkResponse 200
         ("Expense " +:+ decision +:+ " successfully (admin override)")
         (Some e'))
    ∧ e' = applyOverride e admin decision comments now
    ∧ Expense.status e' = decision
    ∧ Expense.approvals e' = Expense.approvals e.
Proof.
  intros Hvalid Hfind He Hdecided.
  set (e' := applyOverride e admin decision comments now).
  assert (Expense.approvals e' = Expense.approvals e) as Happ.
  { subst e'. unfold applyOverride.
    assert (override_step now <$> Expense.approvals e = Expense.approvals e)
      as Hsame.
    { induction Hdecided as [|a l Ha _ IH]; [done|].
      rewrite fmap_cons, IH. unfold override_step at 1.
      by replace (String.eqb (Approval.status a) "pending") with false
        by (symmetry; by apply String.eqb_neq). }
    destruct (String.eqb decision "approved"); simpl; by rewrite Hsame. }
  assert (Expense.status e' = decision) as Hstatus
    by apply applyOverride_effect.
  assert (Expense.validate e' = true) as He'.
  { apply (validate_decision e);
      try (subst e'; unfold applyOverride;
           by destruct (String.eqb decision "approved")); try done.
    - rewrite Hstatus. unfold valid_decision in Hvalid.
      apply orb_true_iff in Hvalid. rewrite !String.eqb_eq in Hvalid.
      by destruct Hvalid as [-> | ->].
    - rewrite Happ. apply validate_approvals in He.
      apply forallb_forall. intros a Ha. apply list_elem_of_In in Ha.
      rewrite Forall_forall in He. by apply He. }
  exists e'. split_and!; try done.
  unfold overrideApproval. rewrite Hvalid, Hfind. simpl. fold e'.
  unfold save. by rewrite He'.
Qed.

(** C8, the failing input. An expense in review with two pending steps,
    and the administrator approves it by override: the update in memory
    marks both steps 'overridden', [save] refuses the document, the
    response is 500 and the stored expense is still in review with both
    steps pending. *)
Lemma override_of_pending_chain_fails :
  let db := submit [ruleA] "emp" in
  let e := review "emp" [Approval.pending "M1" 0; Approval.pending "M2" 1] in
  expenses db !! "x1" = Some e
  ∧ Approval.status <$> Expense.approvals
                          (applyOverride e (req "root") "approved" None 30)
    = ["overridden"; "overridden"]
  ∧ overrideApproval db 30 "x1" (req "root") "approved" None
    = (db, mkResponse 500 "Failed to override approval" None)
  ∧ Expense.status e = "in_review".
Proof. by vm_compute. Qed.

End Stored.

(** * Further properties of the controllers *)

(** ** Creation: when it succeeds, and what it leaves alone *)

Section CreationOutcome.
Import ApprovalService ExpenseController.

Lemma createExpense_not_created
    (convertCurrency : Q → string → string → result Q)
    (db db' : DB) (now : Date) (newId : ObjectId) (employee : ReqUser)
    (body : CreateBody) (resp : Response) :
  createExpense convertCurrency db now newId employee body = (db', resp) →
  code resp ≠ 201%nat → db' = db.
Proof.
  unfold createExpense. destruct (_ || _); [by intros [= <- <-]|].
  destruct (parseFloat (amount body)) as [numAmount|];
    [|by intros [= <- <-]].
  destruct (Qle_bool numAmount 0); [by intros [= <- <-]|].
  match goal with
  | |- context [match ?o with Ok _ => _ | Throw _ => _ end] =>
      destruct o as [[db1 e1]|msg]
  end; by intros [= <- <-].
Qed.

Lemma in_category_enum (s : string) :
  Expense.in_enum Expense.category_enum s = true ↔
    s ∈ Expense.category_enum.
Proof.
  unfold Expense.in_enum. rewrite existsb_exists. split.
  - intros (x & Hx & ->%String.eqb_eq). by apply list_elem_of_In.
  - intros Hs. exists s. split; [by apply list_elem_of_In|].
    apply String.eqb_refl.
Qed.

(** X1. [createExpense] answers 201 only for a positive amount, a category
    of the schema's list (which the controller itself never checks: the
    validators of [save] do), an [_id] that is not taken and a successful
    currency conversion; the stored document then belongs to the caller
    and the caller's company and carries the amount as sent and as
    converted, and no other expense is touched. The description is
    stored trimmed and is not blank, and the date is one that [new Date]
    could read. Any other answer leaves the whole store as it was. *)
Theorem createExpense_outcome
    (convertCurrency : Q → string → string → result Q)
    (db db' : DB) (now : Date) (newId : ObjectId) (employee : ReqUser)
    (body : CreateBody) (resp : Response) :
  createExpense convertCurrency db now newId employee body = (db', resp) →
  (code resp = 201%nat →
   ∃ numAmount converted e,
     parseFloat (amount body) = Some numAmount ∧ (0 < numAmount)%Q
     ∧ category body ∈ Expense.category_enum
     ∧ convertCurrency numAmount (currency body) (company_currency employee)
       = Ok converted
     ∧ expenses db !! newId = None
     ∧ expenses db' = <[newId := e]> (expenses db)
     ∧ users db' = users db ∧ rules db' = rules db
     ∧ Expense.employee e = user_id employee
     ∧ Expense.company e = company_id employee
     ∧ Expense.amount e = Expense.mkMoney numAmount (currency body)
     ∧ Expense.convertedAmount e
       = Expense.mkMoney converted (company_currency employee)
     ∧ Expense.category e = category body
     ∧ Expense.finalApprover e = None ∧ Expense.rejectedAt e = None
     ∧ Expense.description e = trim (description body)
     ∧ Expense.description e ≠ ""
     ∧ ∃ d, expenseDate body = ADate d ∧ Expense.expenseDate e = Some d)
  ∧ (code resp ≠ 201%nat → db' = db).
Proof.
  intros Hcreate. split; [|by eapply createExpense_not_created].
  revert Hcreate. unfold createExpense.
  destruct (_ || _) eqn:Hrequired; [by intros [= <- <-]|].
  destruct (parseFloat (amount body)) as [numAmount|];
    [|by intros [= <- <-]].
  destruct (Qle_bool numAmount 0) eqn:Hpos; [by intros [= <- <-]|].
  match goal with
  | |- context [match ?o with Ok _ => _ | Throw _ => _ end] =>
      destruct o as [[db1 e1]|msg] eqn:Houtcome
  end; [|by intros [= <- <-]].
  intros [= <- <-] _.
  apply bind_Ok in Houtcome as (converted & Hconvert & Houtcome).
  apply bind_Ok in Houtcome as (approvers & Hdetermine & Houtcome).
  apply bind_Ok in Houtcome as (db2 & Hsave & [= <- <-]).
  destruct (expenses db !! newId) eqn:Hfresh; [done|].
  apply save_Ok in Hsave as [Hvalid ->].
  assert (Expense.in_enum Expense.category_enum (category body) = true
          ∧ Expense.required (trim (trim (description body))) = true
          ∧ Expense.is_date (newDate (expenseDate body)) = true)
    as (Hcategory & Hdescription & Hdate).
  { revert Hvalid. unfold Expense.validate, Expense.set_description.
    rewrite !andb_true_iff. destruct approvers; simpl; tauto. }
  exists numAmount, converted. eexists.
  split; [done|]. split.
  { apply Qnot_le_lt. intros Hle. apply Qle_bool_iff in Hle. congruence. }
  split; [by apply in_category_enum|].
  split; [done|]. split; [done|]. split; [done|].
  assert (trim (description body) ≠ "") as Hblank.
  { intros Heq. rewrite Heq in Hdescription. by vm_compute in Hdescription. }
  assert (∃ d, expenseDate body = ADate d) as [d Hd].
  { destruct (expenseDate body); [done..|by eexists]. }
  rewrite Hd. destruct approvers; split_and!; try done; by exists d.
Qed.

Lemma createExpense_outcome_witness :
  ∃ numAmount converted e,
    parseFloat (amount Scenario.lunch) = Some numAmount ∧ (0 < numAmount)%Q
    ∧ category Scenario.lunch ∈ Expense.category_enum
    ∧ Scenario.sameCurrency numAmount (currency Scenario.lunch) "USD"
      = Ok converted
    ∧ expenses (Scenario.company []) !! "x1" = None
    ∧ expenses (Scenario.submit [] "emp")
      = <["x1" := e]> (expenses (Scenario.company []))
    ∧ users (Scenario.submit [] "emp") = users (Scenario.company [])
    ∧ rules (Scenario.submit [] "emp") = rules (Scenario.company [])
    ∧ Expense.employee e = "emp"
    ∧ Expense.company e = "acme"
    ∧ Expense.amount e = Expense.mkMoney numAmount (currency Scenario.lunch)
    ∧ Expense.convertedAmount e = Expense.mkMoney converted "USD"
    ∧ Expense.category e = category Scenario.lunch
    ∧ Expense.finalApprover e = None ∧ Expense.rejectedAt e = None
    ∧ Expense.description e = trim (description Scenario.lunch)
    ∧ Expense.description e ≠ ""
    ∧ ∃ d, expenseDate Scenario.lunch = ADate d
           ∧ Expense.expenseDate e = Some d.
Proof.
  refine (proj1 (createExpense_outcome Scenario.sameCurrency
                   (Scenario.company []) (Scenario.submit [] "emp") 10 "x1"
                   (Scenario.req "emp") Scenario.lunch
                   (mkResponse 201 "Expense created successfully"
                      (Some (Expense.set_currentApprovalLevel 1
                               (Scenario.review "emp"
                                  [Approval.pending "mgr" 1])))) _) _);
    by vm_compute.
Defined.

End CreationOutcome.

(** ** Invariants of the request histories *)

Section Histories.
Import ApprovalService ExpenseController AdminController.

Lemma applyDecision_status (e : Expense.t) (i : nat) (approverId : ObjectId)
    (decision : string) (comments : option string) (now : Date) :
  valid_decision decision = true →
  Expense.status (applyDecision e i approverId decision comments now)
  = "rejected"
  ∨ Expense.status (applyDecision e i approverId decision comments now)
    = "approved"
  ∨ Expense.status (applyDecision e i approverId decision comments now)
    = Expense.status e.
Proof.
  intros _. unfold applyDecision.
  destruct (String.eqb decision "rejected"); [by left|].
  destruct (String.eqb decision "approved"); [|by right; right].
  destruct (nextPendingApproval _ _); [by right; right|by right; left].
Qed.

Lemma findOwnPending_in_workflow (db : DB) (id : ObjectId) (user : ReqUser) :
  in_workflow db → findOwnPending db id user = None.
Proof.
  intros Hdb. unfold findOwnPending.
  destruct (expenses db !! id) as [e|] eqn:He; [|done].
  destruct (String.eqb_spec (Expense.status e) "pending") as [Hs|Hs];
    [|by rewrite andb_false_r].
  destruct (Hdb id e He) as [H|[H|H]]; congruence.
Qed.

Lemma in_workflow_handle (db : DB) (request : Request) :
  in_workflow db → in_workflow (handle db request).
Proof.
  intros Hdb. destruct request; simpl.
  - destruct (createExpense _ _ _ _ _ _) as [db' resp] eqn:Hcreate. simpl.
    destruct (decide (code resp = 201%nat)) as [Hcode|Hcode].
    + destruct (createExpense_created _ _ _ _ _ _ _ _ Hcreate Hcode)
        as (draft & approvers & e & _ & -> & _ & Hsave & _).
      apply save_Ok in Hsave as [_ ->].
      intros id e. simpl. rewrite lookup_insert.
      case_decide; [|apply Hdb]. intros [= <-].
      destruct approvers; [by right; left|by left].
    + by rewrite (createExpense_not_created _ _ _ _ _ _ _ _ Hcreate Hcode).
  - unfold updateExpense. by rewrite findOwnPending_in_workflow.
  - unfold deleteExpense. by rewrite findOwnPending_in_workflow.
  - unfold approveExpense.
    destruct (valid_decision decision) eqn:Hvalid; [|done]. simpl.
    destruct (processApproval _ _ _ _ _ _) as [[db' e']|msg] eqn:Hcall;
      [|done].
    apply processApproval_Ok
      in Hcall as (e & i & a & He & _ & _ & _ & -> & _ & ->).
    intros id' e'. simpl. rewrite lookup_insert.
    case_decide; [|apply Hdb]. intros [= <-].
    destruct (applyDecision_status e i (user_id approver) decision comments
                now Hvalid) as [-> | [-> | ->]];
      [by right; right|by right; left|by eapply Hdb].
  - unfold overrideApproval.
    destruct (valid_decision decision) eqn:Hvalid; [|done]. simpl.
    destruct (findInCompany db id admin) as [e|]; [|done].
    destruct (save _ _ _) as [db'|] eqn:Hsave; [|done].
    apply save_Ok in Hsave as [_ ->].
    intros id' e'. simpl. rewrite lookup_insert.
    case_decide; [|apply Hdb]. intros [= <-].
    unfold valid_decision in Hvalid. apply orb_true_iff in Hvalid.
    rewrite !String.eqb_eq in Hvalid.
    destruct (applyOverride_effect e admin decision comments now) as [-> _].
    destruct Hvalid as [-> | ->]; [by right; left|by right; right].
  - done.
Qed.

Lemma in_workflow_serve (users0 : gmap string User.t)
    (rules0 : list ApprovalRule.t) (history : list Request) :
  in_workflow (serve users0 rules0 history).
Proof.
  unfold serve.
  assert (in_workflow (mkDB users0 rules0 ∅)) as Hinit by (by intros id e).
  revert Hinit. generalize (mkDB users0 rules0 ∅).
  induction history as [|request history IH]; intros db Hdb; [done|].
  simpl. by apply IH, in_workflow_handle.
Qed.

(** X2. Whatever the history of requests, no stored expense has the
    status 'pending': [createExpense] stores 'in_review' or 'approved',
    and the decisions and overrides only move on to 'approved' or
    'rejected'. *)
Theorem stored_expense_never_pending (users0 : gmap string User.t)
    (rules0 : list ApprovalRule.t) (history : list Request) :
  in_workflow (serve users0 rules0 history)
  ∧ ∀ id e, expenses (serve users0 rules0 history) !! id = Some e →
      Expense.status e ≠ "pending".
Proof.
  pose proof (in_workflow_serve users0 rules0 history) as Hserve.
  split; [done|]. intros id e He.
  destruct (Hserve id e He) as [H|[H|H]]; congruence.
Qed.

Lemma stored_expense_never_pending_witness :
  Expense.status (Scenario.review "emp" [Approval.pending "mgr" 1])
  ≠ "pending".
Proof.
  apply (proj2 (stored_expense_never_pending Scenario.staff []
                  [CreateExpense Scenario.sameCurrency 10 "x1"
                     (Scenario.req "emp") Scenario.lunch])
           "x1"
           (Expense.set_currentApprovalLevel 1
              (Scenario.review "emp" [Approval.pending "mgr" 1]))).
  by vm_compute.
Defined.

(** X3. As a consequence, [updateExpense] and [deleteExpense], which only
    accept the caller's own expense in status 'pending', answer 404 to
    every request and change nothing: an expense, once created, can be
    neither edited nor deleted. *)
Theorem update_and_delete_always_refused (users0 : gmap string User.t)
    (rules0 : list ApprovalRule.t) (history : list Request)
    (convertCurrency : Q → string → string → result Q)
    (id : ObjectId) (user : ReqUser) (updates : UpdateBody) :
  let db := serve users0 rules0 history in
  updateExpense convertCurrency db id user updates
  = (db, mkResponse 404 "Expense not found or cannot be updated" None)
  ∧ deleteExpense db id user
    = (db, mkResponse 404 "Expense not found or cannot be deleted" None).
Proof.
  intros db.
  pose proof (in_workflow_serve users0 rules0 history) as Hdb.
  unfold updateExpense, deleteExpense.
  by rewrite (findOwnPending_in_workflow db id user Hdb).
Qed.

End Histories.

(** ** What a request writes *)

Section Frame.
Import ApprovalService ExpenseController AdminController.

Lemma findOwnPending_Some (db : DB) (id : ObjectId) (user : ReqUser)
    (e : Expense.t) :
  findOwnPending db id user = Some e →
  expenses db !! id = Some e ∧ Expense.employee e = user_id user
  ∧ Expense.status e = "pending".
Proof.
  unfold findOwnPending. destruct (expenses db !! id) as [e0|]; [|done].
  destruct (String.eqb_spec (Expense.employee e0) (user_id user));
    [|done].
  destruct (String.eqb_spec (Expense.status e0) "pending"); [|done].
  by intros [= <-].
Qed.

Lemma findInCompany_Some (db : DB) (id : ObjectId) (admin : ReqUser)
    (e : Expense.t) :
  findInCompany db id admin = Some e →
  expenses db !! id = Some e ∧ Expense.company e = company_id admin.
Proof.
  unfold findInCompany. destruct (expenses db !! id) as [e0|]; [|done].
  destruct (String.eqb_spec (Expense.company e0) (company_id admin));
    [|done].
  by intros [= <-].
Qed.

Lemma members_applyDecision (e : Expense.t) (i : nat) (approverId : ObjectId)
    (decision : string) (comments : option string) (now : Date) :
  members (applyDecision e i approverId decision comments now) = members e.
Proof.
  unfold members. rewrite applyDecision_approvals.
  rewrite (list_fmap_alter _ _ id); [by apply list_alter_id|].
  by apply Forall_true.
Qed.

Lemma members_applyOverride (e : Expense.t) (admin : ReqUser)
    (decision : string) (comments : option string) (now : Date) :
  members (applyOverride e admin decision comments now) = members e
  ∧ Expense.employee (applyOverride e admin decision comments now)
    = Expense.employee e
  ∧ Expense.company (applyOverride e admin decision comments now)
    = Expense.company e.
Proof.
  unfold members, applyOverride.
  destruct (String.eqb decision "approved"); simpl;
    (split; [|done]); rewrite <- list_fmap_compose; apply list_fmap_ext;
    intros j a _; simpl; unfold override_step;
    by destruct (String.eqb (Approval.status a) "pending").
Qed.

(** The four shapes of the store after a request. *)
Lemma handle_cases (db : DB) (request : Request) :
  handle db request = db
  ∨ (∃ id e',
       target request = Some id
       ∧ handle db request
         = mkDB (users db) (rules db) (<[id := e']> (expenses db))
       ∧ (expenses db !! id = None
          ∨ ∃ e, expenses db !! id = Some e ∧ members e' = members e
              ∧ Expense.employee e' = Expense.employee e
              ∧ Expense.company e' = Expense.company e))
  ∨ (∃ id e,
       target request = Some id
       ∧ expenses db !! id = Some e ∧ Expense.status e = "pending"
       ∧ handle db request
         = mkDB (users db) (rules db) (delete id (expenses db)))
  ∨ (∃ users' rules',
       request = Administration users' rules'
       ∧ handle db request = mkDB users' rules' (expenses db)).
Proof.
  destruct request; simpl.
  - destruct (createExpense _ _ _ _ _ _) as [db' resp] eqn:Hcreate. simpl.
    destruct (decide (code resp = 201%nat)) as [Hcode|Hcode].
    + destruct (createExpense_created _ _ _ _ _ _ _ _ Hcreate Hcode)
        as (draft & approvers & e & _ & _ & Hfresh & Hsave & _).
      apply save_Ok in Hsave as [_ ->].
      right; left. exists newId, e. by split_and!; [..|left].
    + left. by eapply createExpense_not_created.
  - unfold updateExpense.
    destruct (findOwnPending db id user) as [e|] eqn:Hfind; [|by left].
    apply findOwnPending_Some in Hfind as (He & _ & _).
    match goal with
    | |- context [match ?o with Ok _ => _ | Throw _ => _ end] =>
        destruct o as [[db1 e1]|msg] eqn:Houtcome
    end; [|by left].
    apply bind_Ok in Houtcome as (converted & _ & Houtcome).
    apply bind_Ok in Houtcome as (db2 & Hsave & [= <- <-]).
    apply save_Ok in Hsave as [_ ->].
    right; left. eexists id, _. split_and!; [done|done|].
    right. by exists e.
  - unfold deleteExpense.
    destruct (findOwnPending db id user) as [e|] eqn:Hfind; [|by left].
    apply findOwnPending_Some in Hfind as (He & _ & Hs).
    right; right; left. by exists id, e.
  - unfold approveExpense. destruct (negb _); [by left|].
    destruct (processApproval _ _ _ _ _ _) as [[db' e']|msg] eqn:Hcall;
      [|by left].
    apply processApproval_Ok
      in Hcall as (e & i & a & He & _ & _ & _ & -> & _ & ->).
    right; left. eexists id, _. split_and!; [done|done|].
    right. exists e. split; [done|].
    split; [apply members_applyDecision|].
    by destruct (applyDecision_fields e i (user_id approver) decision
                   comments now) as (? & ? & _).
  - unfold overrideApproval. destruct (negb _); [by left|].
    destruct (findInCompany db id admin) as [e|] eqn:Hfind; [|by left].
    apply findInCompany_Some in Hfind as [He _].
    destruct (save _ _ _) as [db'|] eqn:Hsave; [|by left].
    apply save_Ok in Hsave as [_ ->].
    right; left. eexists id, _. split_and!; [done|done|].
    right. exists e. split; [done|]. apply members_applyOverride.
  - right; right; right. by eexists _, _.
Qed.

(** X4. A request reads and writes one expense, the one its route names:
    every other expense is left as it was, and none of the five expense
    routes writes a user or a rule. *)
Theorem request_writes_its_target_only (db : DB) (request : Request) :
  (∀ id, target request ≠ Some id →
         expenses (handle db request) !! id = expenses db !! id)
  ∧ (target request ≠ None →
     users (handle db request) = users db
     ∧ rules (handle db request) = rules db).
Proof.
  destruct (handle_cases db request)
    as [->|[(id & e' & Ht & -> & _)|[(id & e & Ht & _ & _ & ->)
                                    |(u & rs & -> & ->)]]].
  - done.
  - split; [|done]. intros id' Hid'. simpl.
    apply lookup_insert_ne. congruence.
  - split; [|done]. intros id' Hid'. simpl.
    apply lookup_delete_ne. congruence.
  - done.
Qed.

Lemma request_writes_its_target_only_witness :
  let db := decisions (Scenario.submit [Scenario.ruleA] "emp") 20 "x1"
              [("M1", "approved")] in
  users (handle db (ApproveExpense 21 "x1" (Scenario.req "M2") "approved" None))
  = users db
  ∧ rules (handle db (ApproveExpense 21 "x1" (Scenario.req "M2") "approved"
                        None))
    = rules db.
Proof.
  intros db.
  apply (proj2 (request_writes_its_target_only db
                  (ApproveExpense 21 "x1" (Scenario.req "M2") "approved"
                     None))).
  simpl. discriminate.
Defined.

Lemma foldl_handle_in_workflow (db : DB) (later : list Request) :
  in_workflow db → in_workflow (foldl handle db later).
Proof.
  revert db. induction later as [|request later IH]; intros db Hdb; [done|].
  simpl. by apply IH, in_workflow_handle.
Qed.

(** X5. The chain of an expense is fixed when the expense is created: in
    a store that the requests have produced, an expense stays stored
    through every later request, with the same approvers at the same
    sequences in the same order, the same employee and the same
    company. Decisions and overrides only rewrite the status, the comments
    and the date of a step. *)
Theorem chain_fixed_at_creation (users0 : gmap string User.t)
    (rules0 : list ApprovalRule.t) (history later : list Request)
    (id : ObjectId) (e : Expense.t) :
  expenses (serve users0 rules0 history) !! id = Some e →
  ∃ e', expenses (serve users0 rules0 (history ++ later)) !! id = Some e'
    ∧ members e' = members e
    ∧ Expense.employee e' = Expense.employee e
    ∧ Expense.company e' = Expense.company e.
Proof.
  unfold serve. rewrite foldl_app.
  pose proof (in_workflow_serve users0 rules0 history) as Hdb.
  unfold serve in Hdb.
  revert Hdb e. generalize (foldl handle (mkDB users0 rules0 ∅) history).
  induction later as [|request later IH]; intros db Hdb e He.
  { by exists e. }
  simpl.
  assert (∃ e1, expenses (handle db request) !! id = Some e1
            ∧ members e1 = members e
            ∧ Expense.employee e1 = Expense.employee e
            ∧ Expense.company e1 = Expense.company e) as (e1 & He1 & Hm & Hemp & Hc).
  { destruct (handle_cases db request)
      as [->|[(id' & e' & _ & -> & Hwritten)
             |[(id' & e0 & _ & He0 & Hs & _)|(u & rs & -> & ->)]]].
    - by exists e.
    - simpl. destruct (decide (id' = id)) as [->|Hne].
      + rewrite lookup_insert_eq. exists e'. split; [done|].
        destruct Hwritten as [Hnone|(e0 & He0 & ? & ? & ?)]; [congruence|].
        by simplify_eq.
      + rewrite lookup_insert_ne by done. by exists e.
    - destruct (Hdb id' e0 He0) as [H|[H|H]]; congruence.
    - by exists e. }
  destruct (IH (handle db request) (in_workflow_handle db request Hdb) e1 He1)
    as (e' & He' & Hm' & Hemp' & Hc').
  exists e'. split; [done|]. split_and!; congruence.
Qed.

Lemma chain_fixed_at_creation_witness :
  ∃ e',
    expenses (serve Scenario.staff [Scenario.ruleA]
                ([CreateExpense Scenario.sameCurrency 10 "x1"
                    (Scenario.req "emp") Scenario.lunch]
                 ++ [ApproveExpense 20 "x1" (Scenario.req "M2") "rejected"
                       None;
                     OverrideApproval 30 "x1" (Scenario.req "root")
                       "approved" None])) !! "x1" = Some e'
    ∧ members e' = [("M1", 0); ("M2", 1)]
    ∧ Expense.employee e' = "emp"
    ∧ Expense.company e' = "acme".
Proof.
  apply (chain_fixed_at_creation Scenario.staff [Scenario.ruleA]
           [CreateExpense Scenario.sameCurrency 10 "x1" (Scenario.req "emp")
              Scenario.lunch]
           [ApproveExpense 20 "x1" (Scenario.req "M2") "rejected" None;
            OverrideApproval 30 "x1" (Scenario.req "root") "approved" None]
           "x1"
           (Scenario.review "emp"
              [Approval.pending "M1" 0; Approval.pending "M2" 1])).
  by vm_compute.
Defined.

End Frame.

(** ** The outcome of one decision *)

Section Outcome.
Import ApprovalService ExpenseController.

(** [findIndex] returns the first pending step of the caller. *)
Lemma findIndex_pending_first (db : DB) (approverId : ObjectId)
    (l : list Approval.t) (k i : nat) :
  findIndex_pending db approverId l k = Ok (Some i) →
  ∃ j a, i = (k + j)%nat ∧ l !! j = Some a
    ∧ Approval.approver a = approverId ∧ Approval.status a = "pending"
    ∧ ∀ j' b, (j' < j)%nat → l !! j' = Some b →
        ¬ (Approval.approver b = approverId ∧ Approval.status b = "pending").
Proof.
  revert k. induction l as [|b l IH]; intros k; simpl; [done|].
  destruct (users db !! Approval.approver b); [|done].
  destruct (String.eqb (Approval.approver b) approverId
            && String.eqb (Approval.status b) "pending") eqn:E.
  - intros [= <-]. exists 0%nat, b.
    apply andb_true_iff in E as [E1 E2]. apply String.eqb_eq in E1, E2.
    split_and!; [lia|done..|]. intros j' c Hj'. lia.
  - intros H. apply IH in H as (j & a & -> & Hj & Ha & Hs & Hfirst).
    exists (S j), a. split_and!; [lia|done..|].
    intros [|j'] c Hj' Hc; simplify_eq/=.
    + intros [H1 H2]. apply String.eqb_eq in H1, H2.
      by rewrite H1, H2 in E.
    + apply (Hfirst j' c); [lia|done].
Qed.

Lemma find_from_alter {A} (p : A → nat → bool) (f : A → A) (l : list A)
    (k i : nat) :
  (∀ x, p x (k + i)%nat = false) →
  find_from p (alter f i l) k = find_from p l k.
Proof.
  revert k i. induction l as [|y l IH]; intros k i Hp; [done|].
  destruct i as [|i]; simpl.
  - pose proof (Hp y) as Hy. pose proof (Hp (f y)) as Hfy.
    rewrite Nat.add_0_r in Hy, Hfy. by rewrite Hy, Hfy.
  - destruct (p y k); [done|]. apply IH. intros x.
    rewrite Nat.add_succ_comm. apply Hp.
Qed.

Lemma nextPendingApproval_alter (f : Approval.t → Approval.t)
    (l : list Approval.t) (i : nat) :
  nextPendingApproval (alter f i l) i = nextPendingApproval l i.
Proof.
  unfold nextPendingApproval. apply find_from_alter. intros x. simpl.
  by rewrite Nat.ltb_irrefl.
Qed.

Lemma nextPendingApproval_None (l : list Approval.t) (i : nat) :
  nextPendingApproval l i = None ↔
    ∀ j b, (i < j)%nat → l !! j = Some b → Approval.status b ≠ "pending".
Proof.
  unfold nextPendingApproval. rewrite find_from_None. simpl. split.
  - intros H j b Hj Hb Hs. specialize (H j b Hb).
    apply Nat.ltb_lt in Hj. rewrite Hj, Hs in H. done.
  - intros H j b Hb. destruct (Nat.ltb_spec i j) as [Hj|Hj]; [|done].
    simpl. apply String.eqb_neq. by eapply H.
Qed.

Lemma nextPendingApproval_Some (l : list Approval.t) (i j : nat)
    (b : Approval.t) :
  (i < j)%nat → l !! j = Some b → Approval.status b = "pending" →
  (∀ j' b', (i < j')%nat → (j' < j)%nat → l !! j' = Some b' →
            Approval.status b' ≠ "pending") →
  nextPendingApproval l i = Some b.
Proof.
  intros Hj Hb Hs Hfirst. unfold nextPendingApproval.
  apply (find_from_first _ l 0 j b); [done|..]; simpl.
  - apply Nat.ltb_lt in Hj. by rewrite Hj, Hs.
  - intros j' b' Hj' Hb'. destruct (Nat.ltb_spec i j') as [Hi|Hi]; [|done].
    simpl. apply String.eqb_neq. by eapply Hfirst.
Qed.

(** X6. The outcome of a decision that [approveExpense] accepts. It is
    applied to the first pending step of the caller. A rejection makes the
    expense 'rejected', with the date and the comments as reason, wherever
    the step is in the chain. An approval makes the expense 'approved',
    with the caller as final approver, exactly when no step behind the
    decided one is pending; otherwise the status stays and
    [currentApprovalLevel] becomes the sequence of the first pending step
    behind it. Steps before the decided one are not looked at. *)
Theorem decision_outcome (db : DB) (now : Date) (id : ObjectId)
    (approver : ReqUser) (decision : string) (comments : option string)
    (e : Expense.t) :
  expenses db !! id = Some e →
  let out := approveExpense db now id approver decision comments in
  code out.2 = 200%nat →
  ∃ i a e',
    expenses out.1 !! id = Some e' ∧ expense out.2 = Some e'
    ∧ Expense.approvals e !! i = Some a
    ∧ Approval.approver a = user_id approver
    ∧ Approval.status a = "pending"
    ∧ (∀ j b, (j < i)%nat → Expense.approvals e !! j = Some b →
          ¬ (Approval.approver b = user_id approver
             ∧ Approval.status b = "pending"))
    ∧ (decision = "rejected" →
       Expense.status e' = "rejected"
       ∧ Expense.rejectedAt e' = Some now
       ∧ Expense.rejectionReason e' = comments
       ∧ Expense.finalApprover e' = Expense.finalApprover e
       ∧ Expense.approvedAt e' = Expense.approvedAt e
       ∧ Expense.currentApprovalLevel e' = Expense.currentApprovalLevel e)
    ∧ (decision = "approved" →
       ((∀ j b, (i < j)%nat → Expense.approvals e !! j = Some b →
                Approval.status b ≠ "pending") →
        Expense.status e' = "approved"
        ∧ Expense.approvedAt e' = Some now
        ∧ Expense.finalApprover e' = Some (user_id approver))
       ∧ (∀ j b, (i < j)%nat → Expense.approvals e !! j = Some b →
            Approval.status b = "pending" →
            (∀ j' b', (i < j')%nat → (j' < j)%nat →
                      Expense.approvals e !! j' = Some b' →
                      Approval.status b' ≠ "pending") →
            Expense.status e' = Expense.status e
            ∧ Expense.currentApprovalLevel e' = Approval.sequence b
            ∧ Expense.finalApprover e' = Expense.finalApprover e
            ∧ Expense.approvedAt e' = Expense.approvedAt e)).
Proof.
  intros He out. subst out. unfold approveExpense.
  destruct (valid_decision decision); simpl; [|done].
  unfold processApproval. rewrite He.
  destruct (findIndex_pending db (user_id approver) (Expense.approvals e) 0)
    as [[i|]|msg] eqn:Hfind; simpl; [|done..].
  unfold save. destruct (Expense.validate _); simpl; [|done].
  intros _.
  apply findIndex_pending_first in Hfind as (j & a & -> & Hj & Ha & Hs & Hfirst).
  simpl. exists j, a. eexists. split; [apply lookup_insert_eq|].
  split; [done|]. split_and!; try done.
  - by intros ->.
  - intros ->. unfold applyDecision. simpl.
    rewrite nextPendingApproval_alter. split.
    + intros Hnone. apply nextPendingApproval_None in Hnone.
      by rewrite Hnone.
    + intros j' b Hj' Hb Hsb Hbetween.
      by rewrite (nextPendingApproval_Some _ j j' b).
Qed.

Lemma decision_outcome_witness :
  let out := approveExpense (Scenario.submit [Scenario.ruleB] "emp") 20 "x1"
               (Scenario.req "M1") "approved" None in
  ∃ e', expenses out.1 !! "x1" = Some e'
        ∧ Expense.status e' = "in_review"
        ∧ Expense.currentApprovalLevel e' = 1.
Proof.
  intros out.
  destruct (decision_outcome (Scenario.submit [Scenario.ruleB] "emp") 20 "x1"
              (Scenario.req "M1") "approved" None
              (Scenario.review "emp"
                 [Approval.pending "M1" 0; Approval.pending "M2" 1;
                  Approval.pending "M3" 2]))
    as (i & a & e' & He' & _ & Hi & Ha & _ & _ & _ & Happroved);
    [by vm_compute..|].
  exists e'. split; [exact He'|]. clear He' out.
  destruct (Happroved eq_refl) as [_ Hnext]. clear Happroved.
  assert (i = 0%nat) as ->.
  { destruct i as [|[|[|i]]]; [done|..]; by simplify_eq/=. }
  destruct (Hnext 1%nat (Approval.pending "M2" 1)) as (Hs & Hl & _);
    [lia|done|done|intros; lia|].
  by rewrite Hs, Hl.
Defined.

End Outcome.

(** ** From creation to approval, in chain order *)

Section Lifecycle.
Import ApprovalService ExpenseController.

Lemma processApproval_next_stamps (db : DB) (now : Date) (id : ObjectId)
    (e : Expense.t) (decided : list Approval.t) (a : Approval.t)
    (todo : list Approval.t) (comments : option string) :
  expenses db !! id = Some e →
  Expense.approvals e = decided ++ a :: todo →
  Forall (λ b, Approval.status b ≠ "pending") decided →
  Approval.status a = "pending" →
  Forall (λ b, Approval.status b = "pending") todo →
  (∀ b, b ∈ Expense.approvals e → is_Some (users db !! Approval.approver b)) →
  Expense.validate e = true →
  ∃ e',
    processApproval db now id (Approval.approver a) "approved" comments
    = Ok (mkDB (users db) (rules db) (<[id := e']> (expenses db)), e')
    ∧ Expense.approvals e'
      = (decided ++ [Approval.decided "approved" comments now a]) ++ todo
    ∧ Expense.validate e' = true
    ∧ Expense.currentApprovalLevel e'
      = match todo with
        | [] => Expense.currentApprovalLevel e
        | b :: _ => Approval.sequence b
        end
    ∧ Expense.finalApprover e'
      = match todo with
        | [] => Some (Approval.approver a)
        | _ :: _ => Expense.finalApprover e
        end.
Proof.
  intros He Happ Hdecided Ha Htodo Husers Hvalid.
  destruct (processApproval_next db now id e decided a todo comments)
    as (e' & Hcall & Happ' & _ & Hvalid'); try done.
  exists e'. split; [done|]. split; [done|]. split; [done|].
  assert (e' = applyDecision e (length decided) (Approval.approver a)
                 "approved" comments now) as ->.
  { revert Hcall. unfold processApproval. rewrite He, Happ.
    rewrite findIndex_pending_next; try done.
    - simpl. intros Hcall.
      apply bind_Ok in Hcall as (db1 & _ & Hcall). by simplify_eq.
    - intros b Hb. apply Husers. rewrite Happ, elem_of_app. by left.
    - apply Husers. rewrite Happ, elem_of_app. right. by left. }
  unfold applyDecision. simpl.
  rewrite nextPendingApproval_alter, Happ, nextPendingApproval_todo by done.
  by destruct todo.
Qed.

Lemma decisions_in_order_stamps (id : ObjectId) (todo : list Approval.t) :
  ∀ (k : nat) (decided : list Approval.t) (db : DB) (now : Date)
    (e : Expense.t),
  expenses db !! id = Some e →
  Expense.approvals e = decided ++ todo →
  Forall (λ b, Approval.status b ≠ "pending") decided →
  Forall (λ b, Approval.status b = "pending") todo →
  (∀ b, b ∈ Expense.approvals e → is_Some (users db !! Approval.approver b)) →
  Expense.validate e = true →
  (0 < k)%nat → (k ≤ length todo)%nat →
  ∃ e_k,
    expenses (decisions db now id
                ((λ a, (Approval.approver a, "approved")) <$> take k todo))
      !! id = Some e_k
    ∧ (∀ b, todo !! k = Some b →
         Expense.currentApprovalLevel e_k = Approval.sequence b
         ∧ Expense.finalApprover e_k = Expense.finalApprover e)
    ∧ (∀ a, k = length todo → todo !! (k - 1)%nat = Some a →
         Expense.finalApprover e_k = Some (Approval.approver a)).
Proof.
  induction todo as [|a todo IH];
    intros k decided db now e He Happ Hdecided Htodo Husers Hvalid Hk0 Hk.
  { simpl in Hk. lia. }
  destruct k as [|k]; [lia|].
  apply Forall_cons in Htodo as [Ha Htodo].
  destruct (processApproval_next_stamps db now id e decided a todo None)
    as (e' & Hcall & Happ' & Hvalid' & Hlevel & Hfinal); try done.
  cbn [take fmap list_fmap decisions].
  rewrite (approveExpense_Ok db _ now id
             (mkReqUser (Approval.approver a) "" "") "approved" None e'
             eq_refl Hcall).
  simpl fst.
  set (db' := mkDB (users db) (rules db) (<[id:=e']> (expenses db))).
  destruct k as [|k].
  - exists e'. split; [apply lookup_insert_eq|]. split.
    + intros b Hb. simpl in Hb. rewrite Hlevel, Hfinal.
      destruct todo; by simplify_eq/=.
    + intros a0 Hlen Ha0. simpl in Hlen, Ha0.
      destruct todo; [|simpl in Hlen; lia]. by simplify_eq/=.
  - destruct (IH (S k) (decided ++ [Approval.decided "approved" None now a])
                db' (now + 1) e') as (e_k & Hrun & Hnext & Hlast);
      try done.
    + apply lookup_insert_eq.
    + apply Forall_app. split; [done|]. by repeat constructor.
    + intros b Hb.
      rewrite Happ', !elem_of_app, list_elem_of_singleton in Hb.
      assert (∀ c, c ∈ decided ++ a :: todo →
                   is_Some (users db !! Approval.approver c)) as Hall
        by (intros c Hc; apply Husers; by rewrite Happ).
      destruct Hb as [[Hb| ->]|Hb].
      * apply Hall, elem_of_app. by left.
      * apply (Hall a), elem_of_app. right. by left.
      * apply Hall, elem_of_app. right. by right.
    + lia.
    + simpl in Hk. lia.
    + exists e_k. split; [done|].
      assert (Expense.finalApprover e' = Expense.finalApprover e) as Hsame.
      { rewrite Hfinal. destruct todo; [simpl in Hk; lia|done]. }
      split.
      * intros b Hb. simpl in Hb. destruct (Hnext b Hb) as [Hl Hf].
        split; [done|]. congruence.
      * intros a0 Hlen Ha0. apply (Hlast a0).
        -- simpl in Hlen. lia.
        -- replace (S k - 1)%nat with k by lia.
           replace (S (S k) - 1)%nat with (S k) in Ha0 by lia. done.
Qed.

Lemma createExpense_created_unstamped
    (convertCurrency : Q → string → string → result Q)
    (db db' : DB) (now : Date) (newId : ObjectId) (employee : ReqUser)
    (body : CreateBody) (resp : Response) (e : Expense.t) :
  createExpense convertCurrency db now newId employee body = (db', resp) →
  expense resp = Some e →
  Expense.finalApprover e = None.
Proof.
  unfold createExpense. destruct (_ || _); [by intros [= <- <-]|].
  destruct (parseFloat (amount body)) as [numAmount|];
    [|by intros [= <- <-]].
  destruct (Qle_bool numAmount 0); [by intros [= <- <-]|].
  match goal with
  | |- context [match ?o with Ok _ => _ | Throw _ => _ end] =>
      destruct o as [[db1 e1]|msg] eqn:Houtcome
  end; [|by intros [= <- <-]].
  intros [= <- <-] [= <-].
  apply bind_Ok in Houtcome as (converted & _ & Houtcome).
  apply bind_Ok in Houtcome as (approvers & _ & Houtcome).
  apply bind_Ok in Houtcome as (db2 & _ & [= <- <-]).
  by destruct approvers.
Qed.

(** X7. From creation to approval. Once [createExpense] has answered 201,
    let the approvers of the chain approve one after the other in chain
    order, all of them still being users. After [k] of the [N] approvals
    the first [k] steps are approved and the others pending; while
    [k < N] the expense is in review, [currentApprovalLevel] is the
    sequence of the next step and there is no final approver; at [k = N]
    the expense is approved and its final approver is the approver of the
    last step (an empty chain is approved at once, without one). *)
Theorem created_then_approved_in_order
    (convertCurrency : Q → string → string → result Q)
    (db db' : DB) (now later : Date) (newId : ObjectId) (employee : ReqUser)
    (body : CreateBody) (resp : Response) (e : Expense.t) (k : nat) :
  createExpense convertCurrency db now newId employee body = (db', resp) →
  code resp = 201%nat →
  expense resp = Some e →
  (∀ b, b ∈ Expense.approvals e → is_Some (users db !! Approval.approver b)) →
  (k ≤ length (Expense.approvals e))%nat →
  ∃ e_k,
    expenses (decisions db' later newId
                ((λ a, (Approval.approver a, "approved"))
                 <$> take k (Expense.approvals e))) !! newId = Some e_k
    ∧ Approval.status <$> Expense.approvals e_k
      = replicate k "approved"
        ++ replicate (length (Expense.approvals e) - k) "pending"
    ∧ ((k < length (Expense.approvals e))%nat →
       Expense.status e_k = "in_review"
       ∧ Expense.finalApprover e_k = None
       ∧ ∀ b, Expense.approvals e !! k = Some b →
           Expense.currentApprovalLevel e_k = Approval.sequence b)
    ∧ (k = length (Expense.approvals e) →
       Expense.status e_k = "approved"
       ∧ ∀ a, Expense.approvals e !! (k - 1)%nat = Some a → (0 < k)%nat →
           Expense.finalApprover e_k = Some (Approval.approver a)).
Proof.
  intros Hcreate Hcode Hresp Husers Hk.
  destruct (createExpense_created _ _ _ _ _ _ _ _ Hcreate Hcode)
    as (draft & approvers & e0 & Hdetermine & He0 & _ & Hsave & Hresp0).
  assert (e0 = e) as -> by congruence.
  apply save_Ok in Hsave as [Hvalid ->].
  apply determineApprovers_shape in Hdetermine as [_ Hpending].
  assert (Expense.approvals e = approvers) as Happ
    by (rewrite He0; by destruct approvers).
  assert (Expense.finalApprover e = None) as Hfinal
    by (by eapply createExpense_created_unstamped).
  set (db1 := mkDB (users db) (rules db) (<[newId:=e]> (expenses db))).
  assert (expenses db1 !! newId = Some e) as He by apply lookup_insert_eq.
  rewrite <- Happ in Hpending.
  destruct (decisions_in_order newId (Expense.approvals e) k [] db1 later e)
    as (e_k & Hrun & Hsteps & Hstatus); try done.
  exists e_k. split; [done|]. split; [done|].
  destruct (decide (k = 0%nat)) as [->|Hk0].
  - change (expenses db1 !! newId = Some e_k) in Hrun.
    assert (e_k = e) as -> by congruence. split.
    + intros Hlt. split_and!; [|exact Hfinal|].
      * rewrite He0. destruct approvers as [|first rest]; [|done].
        rewrite Happ in Hlt. simpl in Hlt. lia.
      * intros b Hb. rewrite Happ in Hb. rewrite He0.
        destruct approvers as [|first rest]; by simplify_eq/=.
    + intros Hlen. rewrite He0. destruct approvers as [|first rest].
      * split; [done|]. intros a _ ?. lia.
      * rewrite Happ in Hlen. simpl in Hlen. lia.
  - destruct (decisions_in_order_stamps newId (Expense.approvals e) k [] db1
                later e) as (e_k' & Hrun' & Hnext & Hlast); try done; [lia|].
    assert (e_k' = e_k) as -> by congruence.
    assert (Expense.status e = "in_review") as Hreview.
    { rewrite He0. destruct approvers; [|done].
      rewrite Happ in Hk. simpl in Hk. lia. }
    split.
    + intros Hlt. rewrite Hstatus.
      replace (k =? length (Expense.approvals e))%nat with false
        by (symmetry; apply Nat.eqb_neq; lia).
      rewrite andb_false_r. split; [done|].
      destruct (lookup_lt_is_Some_2 (Expense.approvals e) k Hlt) as [b Hb].
      destruct (Hnext b Hb) as [Hl Hf]. split; [congruence|].
      intros b' Hb'. congruence.
    + intros Hlen. rewrite Hstatus.
      replace (0 <? k)%nat with true by (symmetry; apply Nat.ltb_lt; lia).
      replace (k =? length (Expense.approvals e))%nat with true
        by (symmetry; by apply Nat.eqb_eq).
      split; [done|]. intros a Ha _. by apply Hlast.
Qed.

Lemma created_then_approved_in_order_witness :
  ∃ e_k,
    expenses (decisions (Scenario.submit [] "emp") 20 "x1"
                [("mgr", "approved")]) !! "x1" = Some e_k
    ∧ Approval.status <$> Expense.approvals e_k = ["approved"]
    ∧ ((1 < 1)%nat →
       Expense.status e_k = "in_review"
       ∧ Expense.finalApprover e_k = None
       ∧ ∀ b, [Approval.pending "mgr" 1] !! 1%nat = Some b →
           Expense.currentApprovalLevel e_k = Approval.sequence b)
    ∧ (1%nat = 1%nat →
       Expense.status e_k = "approved"
       ∧ ∀ a, [Approval.pending "mgr" 1] !! 0%nat = Some a → (0 < 1)%nat →
           Expense.finalApprover e_k = Some (Approval.approver a)).
Proof.
  apply (created_then_approved_in_order Scenario.sameCurrency
           (Scenario.company []) (Scenario.submit [] "emp") 10 20 "x1"
           (Scenario.req "emp") Scenario.lunch
           (mkResponse 201 "Expense created successfully"
              (Some (Expense.set_currentApprovalLevel 1
                       (Scenario.review "emp" [Approval.pending "mgr" 1]))))
           (Expense.set_currentApprovalLevel 1
              (Scenario.review "emp" [Approval.pending "mgr" 1]))
           1); try (by vm_compute).
  intros b Hb. simpl in Hb. apply list_elem_of_singleton in Hb as ->.
  by vm_compute; eexists.
Defined.

End Lifecycle.

(** ** Missing users *)

Section MissingUsers.
Import ApprovalService ExpenseController UserController.

Lemma mapM_rule_step_Ok (db : DB) (rule : ApprovalRule.t)
    (l : list ApprovalRule.Approver) (l' : list Approval.t) :
  mapM (rule_step db rule) l = Ok l' →
  ∀ a, a ∈ l → is_Some (users db !! ApprovalRule.user a).
Proof.
  intros H. apply mapM_Ok in H.
  induction H as [|a b l l' Hab _ IH]; intros c Hc.
  - by apply elem_of_nil in Hc.
  - apply elem_of_cons in Hc as [->|Hc]; [|by apply IH].
    unfold rule_step in Hab.
    by destruct (users db !! ApprovalRule.user a).
Qed.

Lemma bind_Throw {A B} (r : result A) (k : A → result B) (msg : string) :
  r ≫= k = Throw msg ↔ r = Throw msg ∨ ∃ a, r = Ok a ∧ k a = Throw msg.
Proof.
  destruct r as [a|msg']; simpl.
  - split; [intros H; right; by exists a|].
    by intros [?|(? & [= <-] & ?)].
  - split; [intros [= ->]; by left|].
    intros [[= ->]|(? & ? & ?)]; done.
Qed.

Lemma mapM_Throw {A B} (f : A → result B) (l : list A) (msg : string) :
  mapM f l = Throw msg → ∃ a, a ∈ l ∧ f a = Throw msg.
Proof.
  induction l as [|x l IH]; cbn [mapM]; [done|].
  rewrite bind_Throw. intros [Hx|(y & _ & H)].
  - exists x. split; [by left|done].
  - apply bind_Throw in H as [H|(ys & _ & H)]; [|done].
    destruct (IH H) as (a & Ha & Hfa). exists a. split; [by right|done].
Qed.

(** X8. [determineApprovers] returns a chain exactly when the records it
    reads exist: the employee, in the default flow and when the selected
    rule requires manager approval, and the user of every configured
    approver of the selected rule. Otherwise it throws, always with the
    message 'Failed to determine approvers'. A rule that does not ask for
    the manager never reads the employee. *)
Theorem determineApprovers_succeeds_iff (db : DB) (expense : Expense.t) :
  ((∃ chain, determineApprovers db expense = Ok chain) ↔
     match find_rules db expense with
     | [] => is_Some (users db !! Expense.employee expense)
     | rule :: _ =>
         (ApprovalRule.requireManagerApproval (ApprovalRule.rules rule) = true
          → is_Some (users db !! Expense.employee expense))
         ∧ ∀ a, a ∈ ApprovalRule.approvers rule →
             is_Some (users db !! ApprovalRule.user a)
     end)
  ∧ ∀ msg, determineApprovers db expense = Throw msg →
      msg = "Failed to determine approvers".
Proof.
  unfold determineApprovers, employee_manager.
  destruct (find_rules db expense) as [|rule rest].
  - destruct (users db !! Expense.employee expense) as [employee|]; simpl.
    + split; [|by destruct (User.manager employee)].
      split; [by eexists|]. intros _. destruct (User.manager employee);
        by eexists.
    + split; [|by intros msg [= <-]].
      split; [by intros [chain ?]|by intros [? ?]].
  - split.
    + split.
      * intros [chain Hchain].
        apply bind_Ok in Hchain as (first & Hfirst & Hchain).
        apply bind_Ok in Hchain as (rest' & Hrest & _).
        split; [|by eapply mapM_rule_step_Ok].
        intros Hreq. rewrite Hreq in Hfirst.
        by destruct (users db !! Expense.employee expense).
      * intros [Hemp Hall]. rewrite (mapM_rule_step db rule _ Hall).
        destruct (ApprovalRule.requireManagerApproval _); [|by eexists].
        destruct (Hemp eq_refl) as [employee ->]. simpl.
        destruct (User.manager employee); by eexists.
    + intros msg.
      assert (∀ l r, mapM (rule_step db rule) l = Throw r →
                     r = "Failed to determine approvers") as HmapM.
      { intros l r Hl. apply mapM_Throw in Hl as (a & _ & Ha).
        unfold rule_step in Ha.
        destruct (users db !! ApprovalRule.user a); by simplify_eq. }
      destruct (ApprovalRule.requireManagerApproval _).
      * destruct (users db !! Expense.employee expense) as [employee|];
          simpl; [|by intros [= <-]].
        destruct (User.manager employee); simpl;
          (destruct (mapM (rule_step db rule) (ApprovalRule.approvers rule))
             as [l'|r'] eqn:Hl; simpl; [done|]);
          intros [= <-]; by eapply HmapM.
      * simpl.
        destruct (mapM (rule_step db rule) (ApprovalRule.approvers rule))
          as [l'|r'] eqn:Hl; simpl; [done|].
        intros [= <-]. by eapply HmapM.
Qed.

Lemma determineApprovers_succeeds_iff_witness :
  ∃ chain,
    determineApprovers (Scenario.company [Scenario.ruleA])
                       (Scenario.draft "nobody") = Ok chain.
Proof.
  apply (proj1 (determineApprovers_succeeds_iff
                  (Scenario.company [Scenario.ruleA])
                  (Scenario.draft "nobody"))).
  split; [done|]. intros a Ha.
  repeat (apply elem_of_cons in Ha as [->|Ha]; [by vm_compute; eexists|]).
  by apply elem_of_nil in Ha.
Defined.

(** The search for the caller's step throws on the first step whose
    approver is no longer a user, unless it has found the step before. *)
Lemma findIndex_pending_dangling (db : DB) (approverId : ObjectId)
    (l : list Approval.t) (k j : nat) (b : Approval.t) :
  l !! j = Some b →
  users db !! Approval.approver b = None →
  (∀ j' a, (j' < j)%nat → l !! j' = Some a →
           ¬ (Approval.approver a = approverId
              ∧ Approval.status a = "pending")) →
  ∃ msg, findIndex_pending db approverId l k = Throw msg.
Proof.
  revert k j. induction l as [|c l IH]; intros k j Hj Hb Hbefore; [done|].
  simpl. destruct j as [|j]; simplify_eq/=.
  { rewrite Hb. by eexists. }
  destruct (users db !! Approval.approver c); [|by eexists].
  destruct (String.eqb_spec (Approval.approver c) approverId) as [H1|H1];
    destruct (String.eqb_spec (Approval.status c) "pending") as [H2|H2];
    simpl;
    try (apply (IH (S k) j); [done|done|];
         intros j' a Hj' Ha; apply (Hbefore (S j') a); [lia|done]).
  destruct (Hbefore 0%nat c); [lia|done|done].
Qed.

(** X9. A step whose approver has been deleted blocks the approvers
    behind it: a caller who has no pending step before that step gets an
    error for every decision, also for a step of their own that is
    pending, and nothing is written. *)
Theorem deleted_approver_blocks_later_steps (db : DB) (now : Date)
    (id : ObjectId) (approver : ReqUser) (decision : string)
    (comments : option string) (e : Expense.t) (j : nat) (b : Approval.t) :
  expenses db !! id = Some e →
  Expense.approvals e !! j = Some b →
  users db !! Approval.approver b = None →
  (∀ j' a, (j' < j)%nat → Expense.approvals e !! j' = Some a →
           ¬ (Approval.approver a = user_id approver
              ∧ Approval.status a = "pending")) →
  (∃ msg, processApproval db now id (user_id approver) decision comments
          = Throw msg)
  ∧ (approveExpense db now id approver decision comments).1 = db
  ∧ code (approveExpense db now id approver decision comments).2 ≠ 200%nat.
Proof.
  intros He Hj Hb Hbefore.
  destruct (findIndex_pending_dangling db (user_id approver)
              (Expense.approvals e) 0 j b Hj Hb Hbefore) as [msg Hmsg].
  assert (processApproval db now id (user_id approver) decision comments
          = Throw msg) as Hcall
    by (unfold processApproval; by rewrite He, Hmsg).
  split; [by eexists|]. unfold approveExpense. rewrite Hcall.
  by destruct (valid_decision decision).
Qed.

End MissingUsers.

(** ** Deleting a user *)

Section DeleteUser.
Import ApprovalService ExpenseController UserController.

Lemma pendingExpenses_zero (db : DB) (employee : ObjectId) :
  (0 <? pendingExpenses db employee)%nat = false ↔
    ∀ id e, expenses db !! id = Some e → Expense.employee e = employee →
            Expense.status e ≠ "pending" ∧ Expense.status e ≠ "in_review".
Proof.
  rewrite Nat.ltb_ge. unfold pendingExpenses. split.
  - intros Hsize id e He Hemp.
    assert (size (filter (λ kv : string * Expense.t,
                            Expense.employee kv.2 = employee
                            ∧ (Expense.status kv.2 = "pending"
                               ∨ Expense.status kv.2 = "in_review"))
                         (expenses db)) = 0%nat) as Hzero by lia.
    apply map_size_empty_iff in Hzero.
    split; intros Hs;
      (eapply (map_filter_empty_not_lookup _ _ id e); [exact Hzero| |exact He]);
      simpl; tauto.
  - intros Hnone.
    match goal with |- (size ?m ≤ 0)%nat => assert (m = ∅) as -> end;
      [|by rewrite map_size_empty].
    apply map_empty. intros id. apply map_lookup_filter_None.
    right. intros e He [Hemp Hs]. simpl in *.
    destruct (Hnone id e He Hemp). tauto.
Qed.

(** X10. [deleteUser] removes a user exactly when the user belongs to the
    administrator's company, is not an administrator and has no expense of
    their own in status 'pending' or 'in_review'. It then removes that
    user and nothing else; in every other case the store is unchanged.
    Expenses, rules and approval chains that name the user are not
    looked at. *)
Theorem deleteUser_outcome (db : DB) (id : ObjectId) (admin : ReqUser) :
  let out := deleteUser db id admin in
  (code out.2 = 200%nat ↔
     ∃ user, users db !! id = Some user
       ∧ User.company user = company_id admin
       ∧ User.role user ≠ "admin"
       ∧ ∀ eid e, expenses db !! eid = Some e → Expense.employee e = id →
           Expense.status e ≠ "pending" ∧ Expense.status e ≠ "in_review")
  ∧ (code out.2 = 200%nat →
     out.1 = mkDB (delete id (users db)) (rules db) (expenses db))
  ∧ (code out.2 ≠ 200%nat → out.1 = db).
Proof.
  intros out. subst out. unfold deleteUser.
  destruct (users db !! id) as [user|] eqn:Huser; simpl.
  2: { split_and!; [|done..]. split; [done|]. by intros (? & ? & _). }
  destruct (String.eqb_spec (User.company user) (company_id admin))
    as [Hc|Hc]; simpl.
  2: { split_and!; [|done..]. split; [done|].
       intros (? & [= <-] & ? & _). done. }
  destruct (String.eqb_spec (User.role user) "admin") as [Hr|Hr]; simpl.
  { split_and!; [|done..]. split; [done|].
    intros (? & [= <-] & _ & ? & _). done. }
  destruct (0 <? pendingExpenses db id)%nat eqn:Hpending; simpl.
  - split_and!; [|done..]. split; [done|].
    intros (? & _ & _ & _ & Hnone).
    apply pendingExpenses_zero in Hnone. congruence.
  - split_and!; [|done..]. split; [|done]. intros _.
    exists user. split_and!; try done. by apply pendingExpenses_zero.
Qed.

Lemma deleteUser_outcome_witness :
  (deleteUser (Scenario.submit [Scenario.ruleA] "emp") "emp"
     (Scenario.req "root")).1
  = Scenario.submit [Scenario.ruleA] "emp".
Proof.
  apply (proj2 (proj2 (deleteUser_outcome
                         (Scenario.submit [Scenario.ruleA] "emp") "emp"
                         (Scenario.req "root")))).
  by vm_compute.
Defined.

(** X11. In particular [deleteUser] accepts the deletion of a manager who
    still has to decide on somebody else's expense. From then on every
    approver who has no pending step before that manager's step is
    refused, whatever the decision: the expense can no longer be completed
    through approvals. *)
Theorem deleting_an_approver_blocks_the_chain (db : DB) (id : ObjectId)
    (admin : ReqUser) (user : User.t) (eid : ObjectId) (e : Expense.t)
    (j : nat) (b : Approval.t) (now : Date) (approver : ReqUser)
    (decision : string) (comments : option string) :
  users db !! id = Some user →
  User.company user = company_id admin →
  User.role user ≠ "admin" →
  (∀ eid e, expenses db !! eid = Some e → Expense.employee e = id →
            Expense.status e ≠ "pending" ∧ Expense.status e ≠ "in_review") →
  expenses db !! eid = Some e →
  Expense.approvals e !! j = Some b →
  Approval.approver b = id →
  (∀ j' a, (j' < j)%nat → Expense.approvals e !! j' = Some a →
           ¬ (Approval.approver a = user_id approver
              ∧ Approval.status a = "pending")) →
  let deleted := deleteUser db id admin in
  code deleted.2 = 200%nat
  ∧ expenses deleted.1 !! eid = Some e
  ∧ (approveExpense deleted.1 now eid approver decision comments).1
    = deleted.1
  ∧ code (approveExpense deleted.1 now eid approver decision comments).2
    ≠ 200%nat.
Proof.
  intros Huser Hc Hr Hnone He Hj Hb Hbefore deleted. subst deleted.
  unfold deleteUser. rewrite Huser.
  replace (String.eqb (User.company user) (company_id admin)) with true
    by (symmetry; by apply String.eqb_eq).
  replace (String.eqb (User.role user) "admin") with false
    by (symmetry; by apply String.eqb_neq).
  apply pendingExpenses_zero in Hnone. rewrite Hnone. simpl.
  split; [done|]. split; [done|].
  set (db' := mkDB (delete id (users db)) (rules db) (expenses db)).
  destruct (findIndex_pending_dangling db' (user_id approver)
              (Expense.approvals e) 0 j b Hj) as [msg Hmsg]; [|done|].
  { rewrite Hb. apply lookup_delete_eq. }
  assert (processApproval db' now eid (user_id approver) decision comments
          = Throw msg) as Hcall.
  { unfold processApproval. change (expenses db') with (expenses db).
    by rewrite He, Hmsg. }
  unfold approveExpense. rewrite Hcall.
  by destruct (valid_decision decision).
Qed.

Lemma deleting_an_approver_blocks_the_chain_witness :
  let deleted := deleteUser (Scenario.submit [Scenario.ruleA] "emp") "M1"
                   (Scenario.req "root") in
  code deleted.2 = 200%nat
  ∧ expenses deleted.1 !! "x1"
    = Some (Scenario.review "emp"
              [Approval.pending "M1" 0; Approval.pending "M2" 1])
  ∧ (approveExpense deleted.1 20 "x1" (Scenario.req "M2") "approved" None).1
    = deleted.1
  ∧ code (approveExpense deleted.1 20 "x1" (Scenario.req "M2") "approved"
            None).2 ≠ 200%nat.
Proof.
  apply (deleting_an_approver_blocks_the_chain
           (Scenario.submit [Scenario.ruleA] "emp") "M1" (Scenario.req "root")
           (Scenario.person "manager" None) "x1"
           (Scenario.review "emp"
              [Approval.pending "M1" 0; Approval.pending "M2" 1])
           0 (Approval.pending "M1" 0) 20 (Scenario.req "M2") "approved" None);
    try (by vm_compute).
  - apply pendingExpenses_zero. by vm_compute.
  - intros j' a Hj'. lia.
Defined.

Lemma deleted_approver_blocks_later_steps_witness :
  let db := (deleteUser (Scenario.submit [Scenario.ruleA] "emp") "M1"
               (Scenario.req "root")).1 in
  (∃ msg, processApproval db 20 "x1" "M2" "approved" None = Throw msg)
  ∧ (approveExpense db 20 "x1" (Scenario.req "M2") "approved" None).1 = db
  ∧ code (approveExpense db 20 "x1" (Scenario.req "M2") "approved" None).2
    ≠ 200%nat.
Proof.
  intros db.
  apply (deleted_approver_blocks_later_steps db 20 "x1" (Scenario.req "M2")
           "approved" None
           (Scenario.review "emp"
              [Approval.pending "M1" 0; Approval.pending "M2" 1])
           0 (Approval.pending "M1" 0)); try (by vm_compute).
  intros j' a Hj'. lia.
Defined.

End DeleteUser.

(** ** The override, when it goes through *)

Section OverrideOutcome.
Import ExpenseController AdminController.

(** X12. For a stored expense of the administrator's company and a
    decision 'approved' or 'rejected', the override is answered with 200
    exactly when no step of the chain is pending. The stored expense then
    has the decision as status and the administrator as final approver,
    its steps are untouched, and the stamps of an earlier outcome stay: an
    approved expense that is overridden to 'rejected' keeps its
    [approvedAt], a rejected one that is overridden to 'approved' keeps
    [rejectedAt] and [rejectionReason]. There is no test of the former
    status. *)
Theorem override_succeeds_iff_no_pending_step (db : DB) (now : Date)
    (id : ObjectId) (admin : ReqUser) (decision : string)
    (comments : option string) (e : Expense.t) :
  valid_decision decision = true →
  findInCompany db id admin = Some e →
  Expense.validate e = true →
  let out := overrideApproval db now id admin decision comments in
  (code out.2 = 200%nat ↔
     Forall (λ a, Approval.status a ≠ "pending") (Expense.approvals e))
  ∧ (code out.2 = 200%nat →
     ∃ e', expenses out.1 !! id = Some e'
       ∧ Expense.status e' = decision
       ∧ Expense.finalApprover e' = Some (user_id admin)
       ∧ Expense.approvals e' = Expense.approvals e
       ∧ Expense.currentApprovalLevel e' = Expense.currentApprovalLevel e
       ∧ (decision = "approved" →
          Expense.approvedAt e' = Some now
          ∧ Expense.rejectedAt e' = Expense.rejectedAt e
          ∧ Expense.rejectionReason e' = Expense.rejectionReason e)
       ∧ (decision = "rejected" →
          Expense.rejectedAt e' = Some now
          ∧ Expense.rejectionReason e' = comments
          ∧ Expense.approvedAt e' = Expense.approvedAt e)).
Proof.
  intros Hvalid Hfind He out.
  destruct (decide (Forall (λ a, Approval.status a ≠ "pending")
                           (Expense.approvals e))) as [Hdecided|Hpending].
  - destruct (overrideApproval_decided db now id admin decision comments e
                Hvalid Hfind He Hdecided)
      as (e' & Hout & -> & Hstatus & Happ).
    subst out. rewrite Hout. simpl. split; [done|]. intros _.
    eexists. split; [apply lookup_insert_eq|].
    split; [done|]. split; [apply applyOverride_effect|].
    split; [done|]. unfold applyOverride.
    split_and!.
    + by destruct (String.eqb decision "approved").
    + by intros ->.
    + by intros ->.
  - apply not_Forall_Exists in Hpending; [|apply _].
    apply Exists_exists in Hpending as (a & Ha & Hs).
    assert (Approval.status a = "pending") as Hs'
      by (by destruct (decide (Approval.status a = "pending"))).
    subst out.
    rewrite (overrideApproval_pending db now id admin decision comments e a);
      try done.
    simpl. split; [|done]. split; [done|]. intros Hall.
    rewrite Forall_forall in Hall. by destruct (Hall a Ha).
Qed.

Lemma override_succeeds_iff_no_pending_step_witness :
  let db := decisions (Scenario.submit [Scenario.ruleA] "emp") 20 "x1"
              [("M1", "approved"); ("M2", "approved")] in
  let out := overrideApproval db 30 "x1" (Scenario.req "root") "rejected"
               (Some "audit") in
  ∃ e', expenses out.1 !! "x1" = Some e'
    ∧ Expense.status e' = "rejected"
    ∧ Expense.approvedAt e' = Some 21.
Proof.
  intros db out.
  destruct (override_succeeds_iff_no_pending_step db 30 "x1"
              (Scenario.req "root") "rejected" (Some "audit")
              (Expense.mk "emp" "acme" (Expense.mkMoney 500 "USD")
                 (Expense.mkMoney 500 "USD") "food" "team lunch"
                 (Some 1714521600000)
                 "approved"
                 [Approval.mk "M1" "approved" None (Some 20) 0;
                  Approval.mk "M2" "approved" None (Some 21) 1]
                 1 (Some "M2") (Some 21) None None))
    as [Hiff Hdone]; [by vm_compute..|].
  destruct Hdone as (e' & He' & Hs & _ & _ & _ & _ & Hrejected).
  { apply Hiff. repeat constructor; by vm_compute. }
  exists e'. split; [exact He'|]. split; [exact Hs|].
  by destruct (Hrejected eq_refl) as (_ & _ & ->).
Defined.

End OverrideOutcome.

(** ** The list of pending approvals *)

Section Listing.
Import ApprovalService ExpenseController PendingApprovals.

Lemma existsb_elem_of {A} (p : A → bool) (l : list A) :
  existsb p l = true ↔ ∃ x, x ∈ l ∧ p x = true.
Proof.
  rewrite existsb_exists. split; intros (x & Hx & Hp); exists x;
    (split; [by apply list_elem_of_In|done]).
Qed.

(** X13. An expense is listed among the pending approvals of an approver
    when it is in status 'pending' or 'in_review', some step names the
    approver and some step is pending; the two need not be the same step.
    So an approver who has decided already keeps seeing the expense as
    long as a step of somebody else is pending, and every decision that
    this approver then posts on the listed expense is refused. *)
Theorem listed_expense_need_not_be_decidable (db : DB) (approverId id : ObjectId)
    (e : Expense.t) :
  (getPendingApprovals db approverId !! id = Some e ↔
     expenses db !! id = Some e
     ∧ (Expense.status e = "pending" ∨ Expense.status e = "in_review")
     ∧ (∃ a, a ∈ Expense.approvals e ∧ Approval.approver a = approverId)
     ∧ (∃ b, b ∈ Expense.approvals e ∧ Approval.status b = "pending"))
  ∧ (getPendingApprovals db approverId !! id = Some e →
     (∀ a, a ∈ Expense.approvals e → Approval.approver a = approverId →
           Approval.status a ≠ "pending") →
     (∃ b, b ∈ Expense.approvals e ∧ Approval.status b = "pending"
           ∧ Approval.approver b ≠ approverId)
     ∧ ∀ now approver decision comments,
         user_id approver = approverId →
         (approveExpense db now id approver decision comments).1 = db
         ∧ code (approveExpense db now id approver decision comments).2
           ≠ 200%nat).
Proof.
  assert (getPendingApprovals db approverId !! id = Some e ↔
            expenses db !! id = Some e
            ∧ (Expense.status e = "pending" ∨ Expense.status e = "in_review")
            ∧ (∃ a, a ∈ Expense.approvals e
                    ∧ Approval.approver a = approverId)
            ∧ (∃ b, b ∈ Expense.approvals e
                    ∧ Approval.status b = "pending")) as Hlisted.
  { unfold getPendingApprovals. rewrite map_lookup_filter_Some. simpl.
    unfold query.
    rewrite !andb_true_iff, orb_true_iff, !existsb_elem_of, !String.eqb_eq.
    setoid_rewrite String.eqb_eq. tauto. }
  split; [done|]. intros Hl Hnone.
  apply Hlisted in Hl as (He & _ & _ & (b & Hb & Hs)). split.
  - exists b. split_and!; [done..|]. intros Hab. by apply (Hnone b).
  - intros now approver decision comments <-. unfold approveExpense.
    destruct (valid_decision decision); simpl; [|done].
    unfold processApproval. rewrite He.
    pose proof (findIndex_pending_nothing db (user_id approver)
                  (Expense.approvals e) 0 Hnone) as Hfind.
    destruct (findIndex_pending _ _ _ _) as [[i|]|msg]; simpl;
      [by destruct (Hfind i)|done..].
Qed.

Lemma listed_expense_need_not_be_decidable_witness :
  let db := decisions (Scenario.submit [Scenario.ruleA] "emp") 20 "x1"
              [("M1", "approved")] in
  (approveExpense db 21 "x1" (Scenario.req "M1") "approved" None).1 = db
  ∧ code (approveExpense db 21 "x1" (Scenario.req "M1") "approved" None).2
    ≠ 200%nat.
Proof.
  intros db.
  refine (proj2 (proj2 (listed_expense_need_not_be_decidable db "M1" "x1"
                          (Expense.set_currentApprovalLevel 1
                             (Expense.set_approvals
                                [Approval.decided "approved" None 20
                                   (Approval.pending "M1" 0);
                                 Approval.pending "M2" 1]
                                (Scenario.review "emp" []))))
                   _ _) 21 (Scenario.req "M1") "approved" None eq_refl).
  - by vm_compute.
  - intros a Ha.
    repeat (apply elem_of_cons in Ha as [->|Ha]; [by vm_compute|]).
    by apply elem_of_nil in Ha.
Defined.

End Listing.

(** ** Creating an approval rule *)

Section RuleCreation.
Import RuleAdmin.

Lemma validApprovers_lookup (db : DB) (admin : ReqUser)
    (approverIds : list ObjectId) (id : ObjectId) (u : User.t) :
  validApprovers db admin approverIds !! id = Some u ↔
    users db !! id = Some u ∧ id ∈ approverIds
    ∧ User.company u = company_id admin
    ∧ (User.role u = "admin" ∨ User.role u = "manager").
Proof. unfold validApprovers. by rewrite map_lookup_filter_Some. Qed.

(** One more [_id] in the list adds one user to the result when it is new
    to the list and names a manager or administrator of the company, and
    none otherwise. *)
Lemma validApprovers_cons (db : DB) (admin : ReqUser) (x : ObjectId)
    (approverIds : list ObjectId) :
  size (validApprovers db admin (x :: approverIds))
  = (size (validApprovers db admin approverIds)
     + if decide (x ∈ approverIds) then 0
       else match users db !! x with
            | Some u =>
                if decide (User.company u = company_id admin
                           ∧ (User.role u = "admin"
                              ∨ User.role u = "manager"))
                then 1 else 0
            | None => 0
            end)%nat.
Proof.
  assert (∀ P : Prop,
            (∀ id v, users db !! id = Some v → id = x →
                     User.company v = company_id admin →
                     User.role v = "admin" ∨ User.role v = "manager" → P) →
            (P → x ∈ approverIds) →
            validApprovers db admin (x :: approverIds)
            = validApprovers db admin approverIds) as Hsame.
  { intros P HP Hin. apply map_eq. intros id. apply option_eq. intros v.
    rewrite !validApprovers_lookup, elem_of_cons. split; [|tauto].
    intros (Hv & [->|Hid] & Hc & Hr); [|done].
    split_and!; try done. apply Hin. by eapply HP. }
  case_decide as Hx.
  { rewrite (Hsame True); [lia|done..]. }
  destruct (users db !! x) as [u|] eqn:Hu.
  2: { rewrite (Hsame False); [lia| |done].
       intros id v Hv ->. congruence. }
  case_decide as Hok.
  2: { rewrite (Hsame False); [lia| |done].
       intros id v Hv -> Hc Hr. destruct Hok. by simplify_eq. }
  destruct Hok as [Hc Hr].
  assert (validApprovers db admin (x :: approverIds)
          = <[x := u]> (validApprovers db admin approverIds)) as ->.
  { apply map_eq. intros id. apply option_eq. intros v.
    rewrite validApprovers_lookup, lookup_insert. case_decide as Hid.
    - subst id. split; [intros (? & _); congruence|].
      intros [= <-]. split_and!; [done|by left|done..].
    - rewrite validApprovers_lookup, elem_of_cons.
      split; [intros (? & [?|?] & ?); [congruence|tauto]|tauto]. }
  rewrite map_size_insert_None; [lia|].
  apply eq_None_not_Some. intros [v Hv].
  apply validApprovers_lookup in Hv. tauto.
Qed.

Lemma validApprovers_size (db : DB) (admin : ReqUser)
    (approverIds : list ObjectId) :
  (size (validApprovers db admin approverIds) ≤ length approverIds)%nat
  ∧ (size (validApprovers db admin approverIds) = length approverIds ↔
       NoDup approverIds
       ∧ ∀ id, id ∈ approverIds →
           ∃ u, users db !! id = Some u
             ∧ User.company u = company_id admin
             ∧ (User.role u = "admin" ∨ User.role u = "manager")).
Proof.
  induction approverIds as [|x ids [IHle IHeq]].
  - assert (validApprovers db admin [] = ∅) as ->.
    { apply map_empty. intros id. apply eq_None_not_Some. intros [v Hv].
      apply validApprovers_lookup in Hv as (_ & Hin & _).
      by apply elem_of_nil in Hin. }
    rewrite map_size_empty. split; [done|]. split; [|done]. intros _.
    split; [constructor|]. intros id Hid. by apply elem_of_nil in Hid.
  - rewrite validApprovers_cons. simpl length. rewrite NoDup_cons.
    case_decide as Hx.
    { split; [lia|]. split; [lia|]. tauto. }
    destruct (users db !! x) as [u|] eqn:Hu.
    2: { split; [lia|]. split; [lia|]. intros [_ Hall].
         destruct (Hall x) as (u & Hu' & _); [by left|congruence]. }
    case_decide as Hok.
    2: { split; [lia|]. split; [lia|]. intros [_ Hall].
         destruct (Hall x) as (u' & Hu' & ? & ?); [by left|].
         destruct Hok. by simplify_eq. }
    split; [lia|]. split.
    + intros Hsize. assert (size (validApprovers db admin ids) = length ids)
        as Hids by lia.
      apply IHeq in Hids as [Hnodup Hall]. split; [done|].
      intros id [->|Hid]%elem_of_cons; [|by apply Hall].
      exists u. tauto.
    + intros [[_ Hnodup] Hall].
      assert (size (validApprovers db admin ids) = length ids) as ->; [|lia].
      apply IHeq. split; [done|]. intros id Hid. apply Hall. by right.
Qed.

Lemma newRule_Ok (admin : ReqUser) (body : Body)
    (approvers : list ApproverBody) (rule : ApprovalRule.t) :
  newRule admin body approvers = Ok rule →
  ApprovalRule.company rule = company_id admin
  ∧ ApprovalRule.isActive rule = true
  ∧ ApprovalRule.user <$> ApprovalRule.approvers rule = b_user <$> approvers
  ∧ ApprovalRule.name rule = b_name body ∧ b_name body ≠ ""
  ∧ ApprovalRule.type (ApprovalRule.rules rule) ∈ type_enum
  ∧ ApprovalRule.priority rule ≠ 0.
Proof.
  unfold newRule.
  destruct (String.eqb_spec (b_name body) "") as [Hname|Hname];
    unfold Expense.required;
    [by replace (String.eqb (b_name body) "") with true
       by (symmetry; by apply String.eqb_eq)|].
  replace (String.eqb (b_name body) "") with false
    by (symmetry; by apply String.eqb_neq).
  simpl. intros H. apply bind_Ok in H as (steps & Hsteps & H).
  apply bind_Ok in H as (rs & Hrs & [= <-]). simpl.
  split_and!; try done.
  - apply mapM_Ok in Hsteps. clear -Hsteps.
    induction Hsteps as [|a b l l' Hab _ IH]; [done|].
    rewrite !fmap_cons, IH. f_equal. unfold approverOf in Hab.
    destruct (b_sequence a); by simplify_eq.
  - unfold rulesOf in Hrs.
    destruct (Expense.in_enum type_enum _) eqn:Henum; [|done].
    unfold Expense.in_enum in Henum. apply existsb_exists in Henum
      as (x & Hx & Heq). apply String.eqb_eq in Heq.
    apply list_elem_of_In in Hx.
    match type of Hrs with
    | (if ?c then _ else _) = _ => destruct c
    end; [|done].
    injection Hrs as <-. simpl. by rewrite Heq.
  - by destruct (b_priority body) as [[| |]|].
Qed.

Lemma createApprovalRule_created (db : DB) (admin : ReqUser) (body : Body) :
  code (createApprovalRule db admin body).2 = 201%nat →
  ∃ approvers rule,
    b_approvers body = Some approvers
    ∧ NoDup (b_user <$> approvers)
    ∧ (∀ id, id ∈ b_user <$> approvers →
         ∃ u, users db !! id = Some u
           ∧ User.company u = company_id admin
           ∧ (User.role u = "admin" ∨ User.role u = "manager"))
    ∧ (createApprovalRule db admin body).1
      = mkDB (users db) (rules db ++ [rule]) (expenses db)
    ∧ newRule admin body approvers = Ok rule.
Proof.
  unfold createApprovalRule.
  destruct (b_approvers body) as [approvers|]; [|done].
  destruct (Nat.eqb_spec (size (validApprovers db admin (b_user <$> approvers)))
              (length (b_user <$> approvers))) as [Hsize|Hsize]; simpl;
    [|done].
  apply validApprovers_size in Hsize as [Hnodup Hall].
  destruct (newRule admin body approvers) as [rule|msg] eqn:Hrule; simpl;
    [|done].
  intros _. by exists approvers, rule.
Qed.



(** X15. A rule that [createApprovalRule] has just stored cannot make
    [determineApprovers] throw on its approvers: for an expense that the
    new rule routes, of an employee who is a user, a chain is returned;
    it consists of the configured approvers, each once, and of the
    manager when the rule asks for one and the employee has one. *)
Theorem created_rule_routes_without_error (db : DB) (admin : ReqUser)
    (body : Body) (expense : Expense.t) (employee : User.t)
    (rule : ApprovalRule.t) (rest : list ApprovalRule.t) :
  code (createApprovalRule db admin body).2 = 201%nat →
  users db !! Expense.employee expense = Some employee →
  ApprovalService.find_rules (createApprovalRule db admin body).1 expense
  = rule :: rest →
  last (rules (createApprovalRule db admin body).1) = Some rule →
  ∃ chain,
    ApprovalService.determineApprovers (createApprovalRule db admin body).1
      expense = Ok chain
    ∧ NoDup (ApprovalRule.user <$> ApprovalRule.approvers rule)
    ∧ ∀ id, id ∈ Approval.approver <$> chain ↔
        id ∈ ApprovalRule.user <$> ApprovalRule.approvers rule
        ∨ (ApprovalRule.requireManagerApproval (ApprovalRule.rules rule) = true
           ∧ User.manager employee = Some id).
Proof.
  intros Hcode Hemp Hfind Hlast.
  destruct (createApprovalRule_created db admin body Hcode)
    as (approvers & rule' & _ & Hnodup & Hall & Hout & Hnew).
  apply newRule_Ok in Hnew as (_ & _ & Husers & _).
  rewrite Hout in Hfind, Hlast |- *. simpl in Hlast.
  rewrite last_snoc in Hlast. injection Hlast as ->.
  assert (∀ a, a ∈ ApprovalRule.approvers rule →
               is_Some (users db !! ApprovalRule.user a)) as Hexist.
  { intros a Ha. destruct (Hall (ApprovalRule.user a)) as (u & Hu & _);
      [|by eexists].
    rewrite <- Husers. by apply list_elem_of_fmap_2. }
  eexists. split.
  { by eapply (determineApprovers_rule _ expense rule rest employee). }
  split; [by rewrite Husers|].
  intros id. rewrite stable_sort_perm, fmap_app, elem_of_app.
  rewrite <- list_fmap_compose.
  change (Approval.approver ∘ _) with ApprovalRule.user.
  destruct (ApprovalRule.requireManagerApproval (ApprovalRule.rules rule)),
    (User.manager employee) as [m|]; simpl;
    rewrite ?list_elem_of_singleton, ?elem_of_nil;
    intuition congruence.
Qed.

Lemma created_rule_routes_without_error_witness :
  let body := mkBody "two steps" None
                (Some [mkApproverBody "M1" (Some 0) None;
                       mkApproverBody "M2" (Some 1) None])
                None None in
  let rule := ApprovalRule.mk "acme" "two steps"
                (ApprovalRule.mkConditions 0 MAX_SAFE_INTEGER [] [])
                [ApprovalRule.mkApprover "M1" 0 true;
                 ApprovalRule.mkApprover "M2" 1 true]
                (ApprovalRule.mkRules "sequential" None [] true) true 1 in
  let db := (createApprovalRule (Scenario.company []) (Scenario.req "root")
               body).1 in
  ∃ chain,
    ApprovalService.determineApprovers db (Scenario.draft "emp") = Ok chain
    ∧ NoDup (ApprovalRule.user <$> ApprovalRule.approvers rule)
    ∧ ∀ id, id ∈ Approval.approver <$> chain ↔
        id ∈ ApprovalRule.user <$> ApprovalRule.approvers rule
        ∨ (ApprovalRule.requireManagerApproval (ApprovalRule.rules rule) = true
           ∧ User.manager (Scenario.person "employee" (Some "mgr")) = Some id).
Proof.
  intros body rule db.
  apply (created_rule_routes_without_error (Scenario.company [])
           (Scenario.req "root") body (Scenario.draft "emp")
           (Scenario.person "employee" (Some "mgr")) rule []);
    by vm_compute.
Defined.

End RuleCreation.

(** ** Stamps and statuses *)

Section Stamps.
Import ApprovalService ExpenseController AdminController.

Lemma stamped_handle (db : DB) (request : Request) :
  in_workflow db → stamped db → stamped (handle db request).
Proof.
  intros Hflow Hdb. destruct request; simpl.
  - destruct (createExpense _ _ _ _ _ _) as [db' resp] eqn:Hcreate. simpl.
    destruct (decide (code resp = 201%nat)) as [Hcode|Hcode].
    + destruct (createExpense_created _ _ _ _ _ _ _ _ Hcreate Hcode)
        as (draft & approvers & e & _ & -> & _ & Hsave & _).
      apply save_Ok in Hsave as [_ ->].
      intros id e. simpl. rewrite lookup_insert.
      case_decide; [|apply Hdb]. intros [= <-].
      destruct approvers; simpl; split_and!; done.
    + by rewrite (createExpense_not_created _ _ _ _ _ _ _ _ Hcreate Hcode).
  - unfold updateExpense. by rewrite findOwnPending_in_workflow.
  - unfold deleteExpense. by rewrite findOwnPending_in_workflow.
  - unfold approveExpense.
    destruct (valid_decision decision) eqn:Hvalid; [|done]. simpl.
    destruct (processApproval _ _ _ _ _ _) as [[db' e']|msg] eqn:Hcall;
      [|done].
    apply processApproval_Ok
      in Hcall as (e & i & a & He & Hi & _ & _ & -> & _ & ->).
    intros id' e'. simpl. rewrite lookup_insert.
    case_decide; [|apply Hdb]. intros [= <-].
    destruct (Hdb id e He) as (Happroved & Hrejected & Hreview).
    assert (Expense.approvals
              (applyDecision e i (user_id approver) decision comments now)
            ≠ []) as Hchain.
    { rewrite applyDecision_approvals. intros Hnil.
      apply (f_equal length) in Hnil. rewrite length_alter in Hnil.
      apply lookup_lt_Some in Hi. simpl in Hnil. lia. }
    unfold applyDecision in *.
    destruct (String.eqb decision "rejected"); [by split_and!|].
    destruct (String.eqb decision "approved"); [|by split_and!].
    destruct (nextPendingApproval _ _); by split_and!.
  - unfold overrideApproval.
    destruct (valid_decision decision) eqn:Hvalid; [|done]. simpl.
    destruct (findInCompany db id admin) as [e|]; [|done].
    destruct (save _ _ _) as [db'|] eqn:Hsave; [|done].
    apply save_Ok in Hsave as [_ ->].
    intros id' e'. simpl. rewrite lookup_insert.
    case_decide; [|apply Hdb]. intros [= <-].
    unfold valid_decision in Hvalid. apply orb_true_iff in Hvalid.
    rewrite !String.eqb_eq in Hvalid.
    destruct Hvalid as [-> | ->]; by split_and!.
  - done.
Qed.

(** X16. Whatever the history of requests, a stored expense that is
    'approved' carries [approvedAt], one that is 'rejected' carries
    [rejectedAt], and one that is 'in_review' has a chain with at least
    one step. *)
Theorem status_comes_with_its_stamp (users0 : gmap string User.t)
    (rules0 : list ApprovalRule.t) (history : list Request) (id : ObjectId)
    (e : Expense.t) :
  expenses (serve users0 rules0 history) !! id = Some e →
  (Expense.status e = "approved" → is_Some (Expense.approvedAt e))
  ∧ (Expense.status e = "rejected" → is_Some (Expense.rejectedAt e))
  ∧ (Expense.status e = "in_review" → Expense.approvals e ≠ []).
Proof.
  revert id e. change (stamped (serve users0 rules0 history)).
  unfold serve.
  assert (in_workflow (mkDB users0 rules0 ∅) ∧ stamped (mkDB users0 rules0 ∅))
    as Hinit by (split; by intros id e).
  revert Hinit. generalize (mkDB users0 rules0 ∅).
  induction history as [|request history IH]; intros db [Hflow Hdb];
    [done|].
  simpl. apply IH. split; [by apply in_workflow_handle|].
  by apply stamped_handle.
Qed.

Lemma status_comes_with_its_stamp_witness :
  let e := Expense.set_approvedAt (Some 10)
             (Expense.set_status "approved" (Scenario.draft "solo")) in
  (Expense.status e = "approved" → is_Some (Expense.approvedAt e))
  ∧ (Expense.status e = "rejected" → is_Some (Expense.rejectedAt e))
  ∧ (Expense.status e = "in_review" → Expense.approvals e ≠ []).
Proof.
  intros e.
  apply (status_comes_with_its_stamp Scenario.staff []
           [CreateExpense Scenario.sameCurrency 10 "x1" (Scenario.req "solo")
              Scenario.lunch] "x1" e).
  by vm_compute.
Defined.

(** X17. Nothing keeps an employee out of the chain of their own expense:
    when the selected rule lists the employee among its approvers, the
    chain that [determineApprovers] returns has a pending step for the
    employee. *)
Theorem employee_may_be_own_approver (db : DB) (expense : Expense.t)
    (rule : ApprovalRule.t) (rest : list ApprovalRule.t) (employee : User.t)
    (a : ApprovalRule.Approver) :
  find_rules db expense = rule :: rest →
  users db !! Expense.employee expense = Some employee →
  (∀ a, a ∈ ApprovalRule.approvers rule →
        is_Some (users db !! ApprovalRule.user a)) →
  a ∈ ApprovalRule.approvers rule →
  ApprovalRule.user a = Expense.employee expense →
  ∃ chain step,
    determineApprovers db expense = Ok chain
    ∧ step ∈ chain
    ∧ Approval.approver step = Expense.employee expense
    ∧ Approval.status step = "pending".
Proof.
  intros Hfind Hemp Hall Ha Hself.
  pose proof (determineApprovers_rule db expense rule rest employee Hfind
                Hemp Hall) as Hchain.
  eexists _, (Approval.pending (ApprovalRule.user a) (shifted rule a)).
  split; [exact Hchain|]. split; [|done].
  rewrite stable_sort_perm, elem_of_app. right.
  by apply (list_elem_of_fmap_2
              (λ a, Approval.pending (ApprovalRule.user a)
                                     (shifted rule a))).
Qed.

Lemma employee_may_be_own_approver_witness :
  ∃ chain step,
    determineApprovers (Scenario.company [Scenario.ruleA])
                       (Scenario.draft "M2") = Ok chain
    ∧ step ∈ chain
    ∧ Approval.approver step = "M2"
    ∧ Approval.status step = "pending".
Proof.
  apply (employee_may_be_own_approver (Scenario.company [Scenario.ruleA])
           (Scenario.draft "M2") Scenario.ruleA []
           (Scenario.person "manager" None) (Scenario.step "M2" 1));
    try (by vm_compute).
  - intros a Ha.
    repeat (apply elem_of_cons in Ha as [->|Ha]; [by vm_compute; eexists|]).
    by apply elem_of_nil in Ha.
  - right. by left.
Defined.

End Stamps.
